(** * pymail-archive: the indexed mbox store of [main.py]

    A shallow embedding of [IndexedMboxMailbox] and [MboxUser] together with
    the parts of Python's [str], [bytes], [email.message] and [mailbox.mbox]
    that these two classes call, followed by the properties of the store. *)

From Stdlib Require Import ZArith Lia List Bool String Ascii.
From stdpp Require Import gmap list sorting.
Import ListNotations.
Local Open Scope Z_scope.

(** ** Python values *)

(** A [str] is a sequence of code points, a [bytes] a sequence of octets. *)
Definition pystr := list Z.
Definition pybytes := list Z.

(** The characters of a literal, as the [str] Python reads it. *)
Definition py (s : string) : pystr :=
  map (fun a => Z.of_nat (nat_of_ascii a)) (list_ascii_of_string s).

(** The exceptions that the store can meet. *)
Inductive exn :=
  | MailboxException (msg : string)
  | KeyError
  | AttributeError
  | OSError
  | UnicodeDecodeError
  | UnicodeEncodeError
  | ValueError
  | LookupError
  | FileNotFoundError
  | NotADirectoryError
  | IsADirectoryError.

(** What a method hands back: [defer.succeed x], [defer.fail e], or an
    exception that leaves the method before any deferred is built. *)
Inductive outcome (A : Type) :=
  | Succeed (a : A)
  | Fail (e : exn)
  | Raise (e : exn).
Arguments Succeed {A} a.
Arguments Fail {A} e.
Arguments Raise {A} e.

(** ** [str] and [bytes] methods *)

(** [str.lower]: the letters A to Z are mapped to a to z.  Python follows the
    Unicode case tables beyond ASCII; those rows are not embedded and such
    code points are left as they are, so [lower_cp] is [str.lower] on ASCII
    text: what is stated about [search] below is stated for such text. *)
Definition lower_cp (c : Z) : Z :=
  if (65 <=? c) && (c <=? 90) then c + 32 else c.
Definition str_lower (s : pystr) : pystr := map lower_cp s.

(** [p in s] on two [str]: substring test. *)
Fixpoint is_prefix (p s : pystr) : bool :=
  match p, s with
  | [], _ => true
  | _ :: _, [] => false
  | a :: p', b :: s' => (a =? b) && is_prefix p' s'
  end.

Fixpoint str_contains (p s : pystr) : bool :=
  is_prefix p s ||
  match s with
  | [] => false
  | _ :: s' => str_contains p s'
  end.

(** [bytes.decode("utf-8", errors)].  [None] stands for [UnicodeDecodeError],
    which only the strict handler raises.  With [errors='ignore'] the decoder
    drops the offending range and resumes behind it: one octet for an invalid
    start byte, the octets read so far for an invalid continuation byte, and
    the whole tail for a sequence cut off by the end of the data. *)
Definition is_cont (b : Z) : bool := (128 <=? b) && (b <=? 191).

Definition on_error (ignore : bool) (rest : option pystr) : option pystr :=
  if ignore then rest else None.

Definition second_ok (b0 b1 : Z) : bool :=
  is_cont b1 &&
  negb ((b0 =? 224) && (b1 <? 160)) &&
  negb ((b0 =? 237) && (160 <=? b1)) &&
  negb ((b0 =? 240) && (b1 <? 144)) &&
  negb ((b0 =? 244) && (144 <=? b1)).

Fixpoint utf8_decode (ignore : bool) (bs : pybytes) : option pystr :=
  match bs with
  | [] => Some []
  | b0 :: r0 =>
    if b0 <? 128 then cons b0 <$> utf8_decode ignore r0
    else if (b0 <? 194) || (244 <? b0) then on_error ignore (utf8_decode ignore r0)
    else
      match r0 with
      | [] => on_error ignore (Some [])
      | b1 :: r1 =>
        if negb (second_ok b0 b1) then on_error ignore (utf8_decode ignore r0)
        else if b0 <? 224 then
          cons ((b0 - 192) * 64 + (b1 - 128)) <$> utf8_decode ignore r1
        else
          match r1 with
          | [] => on_error ignore (Some [])
          | b2 :: r2 =>
            if negb (is_cont b2) then on_error ignore (utf8_decode ignore r1)
            else if b0 <? 240 then
              cons ((b0 - 224) * 4096 + (b1 - 128) * 64 + (b2 - 128))
                <$> utf8_decode ignore r2
            else
              match r2 with
              | [] => on_error ignore (Some [])
              | b3 :: r3 =>
                if negb (is_cont b3) then on_error ignore (utf8_decode ignore r2)
                else
                  cons ((b0 - 240) * 262144 + (b1 - 128) * 4096
                        + (b2 - 128) * 64 + (b3 - 128))
                    <$> utf8_decode ignore r3
              end
          end
      end
  end.

(** [b.decode(errors='ignore')] never raises. *)
Definition bytes_decode_ignore (b : pybytes) : pystr :=
  match utf8_decode true b with
  | Some s => s
  | None => []
  end.

(** [b.decode("utf-8")]. *)
Definition bytes_decode_utf8 (b : pybytes) : option pystr := utf8_decode false b.

(** [s.encode("utf-8")]: [None] stands for [UnicodeEncodeError], raised on a
    surrogate code point. *)
Definition encode_cp (c : Z) : option pybytes :=
  if c <? 128 then Some [c]
  else if c <? 2048 then Some [192 + c / 64; 128 + c mod 64]
  else if (55296 <=? c) && (c <=? 57343) then None
  else if c <? 65536 then
    Some [224 + c / 4096; 128 + (c / 64) mod 64; 128 + c mod 64]
  else
    Some [240 + c / 262144; 128 + (c / 4096) mod 64;
          128 + (c / 64) mod 64; 128 + c mod 64].

Fixpoint str_encode_utf8 (s : pystr) : option pybytes :=
  match s with
  | [] => Some []
  | c :: s' =>
    match encode_cp c, str_encode_utf8 s' with
    | Some b, Some bs => Some (b ++ bs)
    | _, _ => None
    end
  end.

(** ** [email.message.Message], as the store sees it

    A message handle is used through three calls only.  The record keeps what
    each of them returns:
    - [msg.get("subject")]: absent, a [str], or an [email.header.Header]
      object, which the [compat32] policy builds for a header that holds raw
      non-ASCII octets;
    - [msg.get_payload(decode=True)]: the decoded octets, or [None] for a
      multipart message;
    - [msg.as_string()]: the text that the generator writes, or the
      exception that leaves it, such as the [LookupError] of a body with
      octets beyond ASCII in a character set that Python does not know. *)
Inductive header_value :=
  | HStr (s : pystr)
  | HHeader (raw : pybytes).

Record Message := mkMessage {
  subject : option header_value;
  payload : option pybytes;
  flat : exn + pystr
}.

(** [msg.get("subject", "")] *)
Definition get_subject (msg : Message) : header_value :=
  match subject msg with
  | Some v => v
  | None => HStr []
  end.

(** [msg.get_payload(decode=True)] *)
Definition get_payload_decode (msg : Message) : option pybytes := payload msg.

(** [msg.as_string()] *)
Definition as_string (msg : Message) : exn + pystr := flat msg.

(** ** Python [dict] with integer keys, in insertion order *)

Fixpoint dict_get {A} (k : Z) (d : list (Z * A)) : option A :=
  match d with
  | [] => None
  | (k', v) :: d' => if k =? k' then Some v else dict_get k d'
  end.

Definition dict_contains {A} (k : Z) (d : list (Z * A)) : bool :=
  match dict_get k d with
  | Some _ => true
  | None => false
  end.

Fixpoint dict_del {A} (k : Z) (d : list (Z * A)) : list (Z * A) :=
  match d with
  | [] => []
  | (k', v) :: d' => if k =? k' then d' else (k', v) :: dict_del k d'
  end.

(** [enumerate(l)], counting from [i]. *)
Fixpoint enumerate_from {A} (i : Z) (l : list A) : list (Z * A) :=
  match l with
  | [] => []
  | x :: l' => (i, x) :: enumerate_from (i + 1) l'
  end.

(** [sorted(d.keys())], kept with the values: insertion sort on the key. *)
Fixpoint insert_by_key {A} (kv : Z * A) (d : list (Z * A)) : list (Z * A) :=
  match d with
  | [] => [kv]
  | kv' :: d' =>
    if fst kv <=? fst kv' then kv :: kv' :: d' else kv' :: insert_by_key kv d'
  end.

Fixpoint sort_by_key {A} (d : list (Z * A)) : list (Z * A) :=
  match d with
  | [] => []
  | kv :: d' => insert_by_key kv (sort_by_key d')
  end.

(** ** [mailbox.mbox]

    The Message File of a folder is kept as the sequence of its entries, each
    entry being the message that [get_message] parses out of it.  A file
    system maps a path to the entries of the file stored there. *)
Abbreviation FS := (gmap pystr (list Message)).

(** The mbox object: [_toc] maps a key to an entry of the file (the embedding
    stores the entry where Python stores its byte range), [_next_key] is the
    next key [add] would issue, [_pending] tells that the file has to be
    rewritten.  Keys are issued once, by [_generate_toc]; neither [remove] nor
    [flush] renumbers them. *)
Record Mbox := mkMbox {
  path : pystr;
  toc : option (list (Z * Message));
  next_key : Z;
  pending : bool
}.

(** [mailbox.mbox(path)], once [open] has opened the file or has created it
    because it was missing; what [open] answers is told by [open_file]
    below. *)
Definition mbox_open (fs : FS) (p : pystr) : FS * Mbox :=
  (match fs !! p with
   | Some _ => fs
   | None => <[p := []]> fs
   end,
   {| path := p; toc := None; next_key := 0; pending := false |}).

(** The entries of the file behind [mb]. *)
Definition file_of (fs : FS) (p : pystr) : list Message :=
  match fs !! p with
  | Some l => l
  | None => []
  end.

(** [_generate_toc]: keys 0, 1, ... in file order. *)
Definition generate_toc (fs : FS) (mb : Mbox) : Mbox :=
  let entries := file_of fs (path mb) in
  {| path := path mb;
     toc := Some (enumerate_from 0 entries);
     next_key := Z.of_nat (length entries);
     pending := pending mb |}.

(** [_lookup()]: builds the table on first use. *)
Definition lookup_toc (fs : FS) (mb : Mbox) : Mbox :=
  match toc mb with
  | Some _ => mb
  | None => generate_toc fs mb
  end.

Definition toc_items (mb : Mbox) : list (Z * Message) :=
  match toc mb with
  | Some t => t
  | None => []
  end.

(** [del mb[key]], that is [remove(key)]: [KeyError] when the key is not in
    the table; otherwise the key leaves the table and the rewrite is pending. *)
Definition mbox_remove (fs : FS) (mb : Mbox) (key : Z) : option exn * Mbox :=
  let mb1 := lookup_toc fs mb in
  if dict_contains key (toc_items mb1) then
    (None,
     {| path := path mb1;
        toc := Some (dict_del key (toc_items mb1));
        next_key := next_key mb1;
        pending := true |})
  else (Some KeyError, mb1).

(** [flush()]: nothing to do unless a rewrite is pending; otherwise the
    entries of the table are written, in key order, to a new file that
    replaces the old one, and the table keeps its keys.  [disk_ok] tells
    whether the operating system carries the write out; when it does not,
    [OSError] leaves [flush] with the file and the object as they were: this
    is a write that fails while the new file is created or filled.  A
    failure that comes later, when the new file is synced or renamed, is not
    covered. *)
Definition mbox_flush (disk_ok : bool) (fs : FS) (mb : Mbox)
  : option exn * FS * Mbox :=
  if negb (pending mb) then (None, fs, mb)
  else if negb disk_ok then (Some OSError, fs, mb)
  else
    let new_toc := sort_by_key (toc_items mb) in
    (None,
     <[path mb := map snd new_toc]> fs,
     {| path := path mb;
        toc := Some new_toc;
        next_key := next_key mb;
        pending := false |}).

(** [list(mb)]: [itervalues] reads the message of every key of the table, in
    the order of the table. *)
Definition mbox_values (fs : FS) (mb : Mbox) : list Message * Mbox :=
  let mb1 := lookup_toc fs mb in
  (map snd (toc_items mb1), mb1).

(** ** [IndexedMboxMailbox] *)

Record IndexedMboxMailbox := mkStore {
  folder_name : pystr;
  mbox_file : pystr;
  mbox : Mbox;
  listeners : list Z;
  messages : list Message;
  index : list (Z * Message)
}.

(** [MBOX_DIR] and [os.path.join(MBOX_DIR, f"{folder_name}.mbox")]: [join]
    drops [MBOX_DIR] when the second part starts with a slash. *)
Definition MBOX_DIR : pystr := py "mailboxes".
Definition mbox_path (name : pystr) : pystr :=
  if is_prefix (py "/") (name ++ py ".mbox") then name ++ py ".mbox"
  else MBOX_DIR ++ py "/" ++ name ++ py ".mbox".

(** The dict [{i + 1: msg for i, msg in enumerate(msgs)}].  Its keys are
    distinct, so the dict is the list of its items. *)
Definition index_of (msgs : list Message) : list (Z * Message) :=
  map (fun im => (fst im + 1, snd im)) (enumerate_from 0 msgs).

(** [_load_index]:
    [self.messages = list(self.mbox)];
    [self.index = {i + 1: msg for i, msg in enumerate(self.messages)}]. *)
Definition _load_index (fs : FS) (self : IndexedMboxMailbox) : IndexedMboxMailbox :=
  let '(msgs, mb) := mbox_values fs (mbox self) in
  {| folder_name := folder_name self;
     mbox_file := mbox_file self;
     mbox := mb;
     listeners := listeners self;
     messages := msgs;
     index := index_of msgs |}.

(** [__init__], for a file that opens: [IndexedMboxMailbox_new] below is the
    call of the constructor with the exceptions of [open]. *)
Definition IndexedMboxMailbox_init (fs : FS) (name : pystr)
  : FS * IndexedMboxMailbox :=
  let '(fs1, mb) := mbox_open fs (mbox_path name) in
  (fs1,
   _load_index fs1
     {| folder_name := name;
        mbox_file := mbox_path name;
        mbox := mb;
        listeners := [];
        messages := [];
        index := [] |}).

Definition getMessageCount (self : IndexedMboxMailbox) : outcome Z :=
  Succeed (Z.of_nat (length (messages self))).

Definition getRecentCount (self : IndexedMboxMailbox) : outcome Z :=
  Succeed (Z.of_nat (length (messages self))).

Definition getUnseenCount (self : IndexedMboxMailbox) : outcome Z :=
  Succeed 0.

Definition not_found : exn := MailboxException "Message not found".

(** [fetchMessage] *)
Definition fetchMessage (self : IndexedMboxMailbox) (message_id : Z)
  : outcome pybytes :=
  match dict_get message_id (index self) with
  | Some msg =>
    match as_string msg with
    | inl e => Raise e
    | inr text =>
      match str_encode_utf8 text with
      | Some b => Succeed b
      | None => Raise UnicodeEncodeError
      end
    end
  | None => Fail not_found
  end.

Definition with_mbox (self : IndexedMboxMailbox) (mb : Mbox) : IndexedMboxMailbox :=
  {| folder_name := folder_name self;
     mbox_file := mbox_file self;
     mbox := mb;
     listeners := listeners self;
     messages := messages self;
     index := index self |}.

(** [deleteMessage]:
    [del self.mbox[message_id - 1]], [self.mbox.flush()],
    [self._load_index()], in this order; an exception of the first two leaves
    the method at once. *)
Definition deleteMessage (disk_ok : bool) (fs : FS) (self : IndexedMboxMailbox)
    (message_id : Z) : outcome bool * FS * IndexedMboxMailbox :=
  if dict_contains message_id (index self) then
    match mbox_remove fs (mbox self) (message_id - 1) with
    | (Some e, mb1) => (Raise e, fs, with_mbox self mb1)
    | (None, mb1) =>
      match mbox_flush disk_ok fs mb1 with
      | (Some e, fs2, mb2) => (Raise e, fs2, with_mbox self mb2)
      | (None, fs2, mb2) =>
        (Succeed true, fs2, _load_index fs2 (with_mbox self mb2))
      end
    end
  else (Fail not_found, fs, self).

(** The test of the loop of [search]:
    [query.lower() in msg.get("subject", "").lower() or
     query.lower() in msg.get_payload(decode=True).decode(errors='ignore').lower()].
    A [Header] object has no [lower], [None] has no [decode]: both raise
    [AttributeError].  The right operand of [or] is evaluated only when the
    left one is false. *)
Definition search_test (query : pystr) (msg : Message) : exn + bool :=
  match get_subject msg with
  | HHeader _ => inl AttributeError
  | HStr subj =>
    if str_contains (str_lower query) (str_lower subj) then inr true
    else
      match get_payload_decode msg with
      | None => inl AttributeError
      | Some b =>
        inr (str_contains (str_lower query) (str_lower (bytes_decode_ignore b)))
      end
  end.

(** The loop of [search] over [self.index.items()], [results] being the list
    built so far. *)
Fixpoint search_loop (query : pystr) (items : list (Z * Message))
    (results : list Z) : outcome (list Z) :=
  match items with
  | [] => Succeed results
  | (msg_id, msg) :: items' =>
    match search_test query msg with
    | inl e => Raise e
    | inr true => search_loop query items' (results ++ [msg_id])
    | inr false => search_loop query items' results
    end
  end.

Definition search (self : IndexedMboxMailbox) (query : pystr)
  : outcome (list Z) :=
  search_loop query (index self) [].

(** ** Opening a Message File

    [mailbox.mbox(path)] opens the file with [open(path, 'rb+')] and creates
    it with [open(path, 'wb+')] when it is missing; an exception of [open]
    leaves the constructor of the store.  What [open] answers is a matter of
    the disk.  The disks of the embedding hold [MBOX_DIR], which the module
    creates when it is loaded, the files of the file system and the
    directories on the way to them, and nothing else: a directory is there
    when a file lies in it.  The process may read and write all of it, and
    every file of the file system loads. *)

(** [s.split("/")] *)
Fixpoint split_slash (s : pystr) : list pystr :=
  match s with
  | [] => [[]]
  | c :: s' =>
    if c =? 47 then [] :: split_slash s'
    else
      match split_slash s' with
      | [] => [[c]]
      | x :: xs => (c :: x) :: xs
      end
  end.

Definition is_file (fs : FS) (p : pystr) : bool :=
  match fs !! p with
  | Some _ => true
  | None => false
  end.

Definition is_dir (fs : FS) (d : pystr) : bool :=
  existsb (fun k => is_prefix (d ++ py "/") k) (map fst (map_to_list fs)).

(** A file name of more than [NAME_MAX] = 255 octets. *)
Definition name_too_long (c : pystr) : bool :=
  match str_encode_utf8 c with
  | Some b => 255 <? Z.of_nat (length b)
  | None => false
  end.

Inductive opening :=
  | Opened
  | Refused (e : exn).

(** The way of [open] from the directory [dir] down the components of a
    path: a name that is too long is [ENAMETOOLONG], a file on the way is
    [ENOTDIR], a directory that is missing on the way is [ENOENT], also for
    the second [open]; at the end a file is opened, a directory is [EISDIR],
    and a missing file is created. *)
Fixpoint walk (fs : FS) (dir : pystr) (comps : list pystr) : opening :=
  match comps with
  | [] => Opened
  | c :: comps' =>
    let p := dir ++ py "/" ++ c in
    if name_too_long c then Refused OSError
    else
      match comps' with
      | [] =>
        if is_file fs p then Opened
        else if is_dir fs p then Refused IsADirectoryError
        else Opened
      | _ :: _ =>
        if is_file fs p then Refused NotADirectoryError
        else if is_dir fs p then walk fs p comps'
        else Refused FileNotFoundError
      end
  end.

(** The folder names for which the embedding tells what [open] does: code
    points that a file name can hold, a path of at most 1024 octets, and no
    component before the last one that is empty, [.] or [..]; this leaves out
    the absolute names and the names that [os.path.abspath] rewrites. *)
Definition scalar (c : Z) : bool :=
  (0 <=? c) && (c <=? 1114111) && negb ((55296 <=? c) && (c <=? 57343)).

Definition plain_component (c : pystr) : bool :=
  negb (bool_decide (c = []) || bool_decide (c = py ".")
        || bool_decide (c = py "..")).

Definition covered (name : pystr) : bool :=
  forallb scalar name
  && match str_encode_utf8 (mbox_path name) with
     | Some b => Z.of_nat (length b) <=? 1024
     | None => false
     end
  && forallb plain_component (removelast (split_slash name)).

(** [open] on the file of a folder name; [None] for a name that is not
    covered.  A NUL in the name is a [ValueError] of [open]. *)
Definition open_file (fs : FS) (name : pystr) : option opening :=
  if negb (covered name) then None
  else if existsb (Z.eqb 0) name then Some (Refused ValueError)
  else Some (walk fs MBOX_DIR (split_slash (name ++ py ".mbox"))).

(** The call [IndexedMboxMailbox(folder_name)]: the exception of [open], or
    the store that [__init__] builds once the file is open. *)
Definition IndexedMboxMailbox_new (fs : FS) (name : pystr)
  : option (exn + FS * IndexedMboxMailbox) :=
  match open_file fs name with
  | None => None
  | Some (Refused e) => Some (inl e)
  | Some Opened => Some (inr (IndexedMboxMailbox_init fs name))
  end.

(** ** [MboxUser]

    Stores are objects: the account's dict holds references into a heap of
    stores, and [select] hands such a reference out. *)
Record World := mkWorld {
  fs : gmap pystr (list Message);
  heap : list IndexedMboxMailbox
}.

Record MboxUser := mkUser {
  mailboxes : gmap pystr nat
}.

(** Allocation of a new store object. *)
Definition alloc (w : World) (fs1 : FS) (s : IndexedMboxMailbox) : nat * World :=
  (length (heap w), {| fs := fs1; heap := heap w ++ [s] |}).

(** [MboxUser.__init__], for a disk on which the file of INBOX opens. *)
Definition MboxUser_init (w : World) : World * MboxUser :=
  let '(fs1, s) := IndexedMboxMailbox_init (fs w) (py "INBOX") in
  let '(l, w1) := alloc w fs1 s in
  (w1, {| mailboxes := {[ py "INBOX" := l ]} |}).

(** The call [MboxUser()]: the exception of the constructor of the INBOX
    store, or the account that [__init__] builds. *)
Definition MboxUser_new (w : World) : option (exn + World * MboxUser) :=
  match open_file (fs w) (py "INBOX") with
  | None => None
  | Some (Refused e) => Some (inl e)
  | Some Opened => Some (inr (MboxUser_init w))
  end.

(** [select]: [name] arrives as [bytes].  An exception of the constructor
    leaves [select] before the name is bound.  [None] for a new name that is
    not covered. *)
Definition select (w : World) (self : MboxUser) (name : pybytes)
  : option (outcome nat * World * MboxUser) :=
  match bytes_decode_utf8 name with
  | None => Some (Raise UnicodeDecodeError, w, self)
  | Some folder =>
    match mailboxes self !! folder with
    | Some l => Some (Succeed l, w, self)
    | None =>
      match IndexedMboxMailbox_new (fs w) folder with
      | None => None
      | Some (inl e) => Some (Raise e, w, self)
      | Some (inr (fs1, s)) =>
        let '(l, w1) := alloc w fs1 s in
        Some (Succeed l, w1, {| mailboxes := <[folder := l]> (mailboxes self) |})
      end
    end
  end.

(** [create]: the constructor runs first, so its exception leaves [create]
    with the account as it was.  [None] for a name that is not covered. *)
Definition create (w : World) (self : MboxUser) (p : pystr)
  : option (outcome bool * World * MboxUser) :=
  match IndexedMboxMailbox_new (fs w) p with
  | None => None
  | Some (inl e) => Some (Raise e, w, self)
  | Some (inr (fs1, s)) =>
    let '(l, w1) := alloc w fs1 s in
    Some (Succeed true, w1, {| mailboxes := <[p := l]> (mailboxes self) |})
  end.

(** [delete] *)
Definition delete_folder (w : World) (self : MboxUser) (p : pystr)
  : outcome bool * World * MboxUser :=
  match mailboxes self !! p with
  | Some _ => (Succeed true, w, {| mailboxes := delete p (mailboxes self) |})
  | None => (Fail (MailboxException "Mailbox not found"), w, self)
  end.

(** Calls made through a reference. *)
Definition deleteMessage_at (disk_ok : bool) (w : World) (l : nat) (message_id : Z)
  : option (outcome bool) * World :=
  match heap w !! l with
  | None => (None, w)
  | Some s =>
    let '(r, fs1, s1) := deleteMessage disk_ok (fs w) s message_id in
    (Some r, {| fs := fs1; heap := <[l := s1]> (heap w) |})
  end.

Definition getMessageCount_at (w : World) (l : nat) : option (outcome Z) :=
  getMessageCount <$> heap w !! l.

(** ** Runs of calls on one store *)

(** A call of the protocol layer.  Only [deleteMessage] changes the store or
    the file; [disk_ok] tells whether its write reaches the disk. *)
Inductive request :=
  | ReqCount
  | ReqFetch (message_id : Z)
  | ReqSearch (query : pystr)
  | ReqDelete (disk_ok : bool) (message_id : Z).

Definition serve (st : FS * IndexedMboxMailbox) (req : request)
  : FS * IndexedMboxMailbox :=
  match req with
  | ReqDelete disk_ok message_id =>
    let '(_, fs1, s1) := deleteMessage disk_ok (fst st) (snd st) message_id in
    (fs1, s1)
  | _ => st
  end.

Definition serve_all (st : FS * IndexedMboxMailbox) (reqs : list request)
  : FS * IndexedMboxMailbox :=
  fold_left serve reqs st.

(** The identifiers of the index are exactly 1, ..., [n], in this order. *)
Definition dense (self : IndexedMboxMailbox) (n : Z) : Prop :=
  map fst (index self) = seqZ 1 n /\
  forall message_id,
    dict_contains message_id (index self) = true <-> 1 <= message_id <= n.

(** ** What the specification calls a match *)

(** [q] occurs in [s] when case is ignored. *)
Definition ci_substring (q s : pystr) : Prop :=
  exists before after, str_lower s = before ++ str_lower q ++ after.

(** A message whose subject is text and whose body is one octet string. *)
Definition is_plain (msg : Message) : bool :=
  match get_subject msg, get_payload_decode msg with
  | HStr _, Some _ => true
  | _, _ => false
  end.

Definition subject_text (msg : Message) : pystr :=
  match get_subject msg with
  | HStr s => s
  | HHeader _ => []
  end.

Definition body_text (msg : Message) : pystr :=
  match get_payload_decode msg with
  | Some b => bytes_decode_ignore b
  | None => []
  end.

Definition spec_match (q : pystr) (msg : Message) : Prop :=
  ci_substring q (subject_text msg) \/ ci_substring q (body_text msg).

(** ** The octets of an mbox file

    The store reads its messages through [mailbox.mbox] and the [email]
    parser, and writes them back with [as_string].  This part follows the
    octets on that way, for messages without MIME structure: printable ASCII
    and line feeds, header lines of the form [name:value], no continuation
    lines, no Content-Type or Content-Transfer-Encoding header.  [None] marks
    an input outside of this fragment.  Line ends are POSIX ones
    ([os.linesep] is one line feed). *)

(** [readline] until the end of the data: the lines, each with its line feed. *)
Fixpoint split_lines (b : pybytes) : list pybytes :=
  match b with
  | [] => []
  | c :: b' =>
    if c =? 10 then [c] :: split_lines b'
    else
      match split_lines b' with
      | [] => [[c]]
      | l :: ls => (c :: l) :: ls
      end
  end.

(** One [readline]: the line and what follows it. *)
Fixpoint break_line (b : pybytes) : pybytes * pybytes :=
  match b with
  | [] => ([], [])
  | c :: b' =>
    if c =? 10 then ([c], b')
    else let '(l, r) := break_line b' in (c :: l, r)
  end.

Definition From_ : pybytes := py "From ".
Definition starts_with (p s : pybytes) : bool := is_prefix p s.

(** [_generate_toc] of [mailbox.mbox]: the scan, line by line. *)
Record toc_state := mkTocState {
  starts : list Z;
  stops : list Z;
  last_was_empty : bool
}.

Definition stop_before (st : toc_state) (line_pos : Z) : Z :=
  if last_was_empty st then line_pos - 1 else line_pos.

Definition toc_line (st : toc_state) (line_pos : Z) (line : pybytes) : toc_state :=
  if starts_with From_ line then
    {| starts := starts st ++ [line_pos];
       stops := if (length (stops st) <? length (starts st))%nat
                then stops st ++ [stop_before st line_pos]
                else stops st;
       last_was_empty := false |}
  else
    {| starts := starts st;
       stops := stops st;
       last_was_empty := if decide (line = [10]) then true else false |}.

Fixpoint toc_scan (st : toc_state) (line_pos : Z) (lines : list pybytes)
  : toc_state :=
  match lines with
  | [] =>
    {| starts := starts st;
       stops := stops st ++ [stop_before st line_pos];
       last_was_empty := last_was_empty st |}
  | line :: lines' =>
    toc_scan (toc_line st line_pos line) (line_pos + Z.of_nat (length line)) lines'
  end.

(** The byte ranges of the messages, in file order (the values of [_toc]). *)
Definition toc_ranges (file : pybytes) : list (Z * Z) :=
  let st := toc_scan {| starts := []; stops := []; last_was_empty := false |}
                     0 (split_lines file) in
  zip (starts st) (stops st).

(** [str.lstrip(' \t')] and [str.rstrip('\r\n')] *)
Fixpoint lstrip_blank (s : pystr) : pystr :=
  match s with
  | c :: s' => if (c =? 32) || (c =? 9) then lstrip_blank s' else s
  | [] => []
  end.

Definition rstrip_newline (s : pystr) : pystr :=
  reverse (
    (fix go (r : pystr) : pystr :=
       match r with
       | c :: r' => if (c =? 13) || (c =? 10) then go r' else r
       | [] => []
       end) (reverse s)).

(** The field name of the header pattern of the parser,
    [[\041-\071\073-\176]*:]: the name and what follows the colon. *)
Definition name_char (c : Z) : bool :=
  (33 <=? c) && (c <=? 126) && negb (c =? 58).
Definition text_char (c : Z) : bool := (32 <=? c) && (c <=? 126).

Fixpoint split_name (line : pystr) : option (pystr * pystr) :=
  match line with
  | [] => None
  | c :: r =>
    if c =? 58 then Some ([], r)
    else if name_char c then
      match split_name r with
      | Some (n, v) => Some (c :: n, v)
      | None => None
      end
    else None
  end.

(** The header loop of [FeedParser._parsegen] with [_parse_headers] and
    [header_source_parse]: the fields, and the lines of the body.  The blank
    line that ends the headers is dropped; a first line that is no header
    line belongs to the body.  Envelope lines, continuation lines and fields
    without a name are outside of the fragment. *)
Fixpoint parse_headers (lines : list pystr)
  : option (list (pystr * pystr) * list pystr) :=
  match lines with
  | [] => Some ([], [])
  | l :: ls =>
    if starts_with From_ l || starts_with [32] l || starts_with [9] l then None
    else
      match split_name l with
      | Some ([], _) => None
      | Some (n, v) =>
        match parse_headers ls with
        | Some (hs, rest) => Some ((n, rstrip_newline (lstrip_blank v)) :: hs, rest)
        | None => None
        end
      | None =>
        if starts_with [10] l then Some ([], ls) else Some ([], l :: ls)
      end
  end.

(** [msg.get(name)]: the first field of that name, case ignored. *)
Fixpoint header_get (name : pystr) (hs : list (pystr * pystr)) : option pystr :=
  match hs with
  | [] => None
  | (n, v) :: hs' =>
    if decide (str_lower n = str_lower name) then Some v else header_get name hs'
  end.

(** What the generator writes for the fields and the payload
    ([Generator._write_headers], then the payload): every field as
    [name: value], a blank line, the body. *)
Definition header_line (h : pystr * pystr) : pystr :=
  fst h ++ py ": " ++ snd h ++ [10].

Definition flatten (hs : list (pystr * pystr)) (body : pystr) : pystr :=
  concat (map header_line hs) ++ [10] ++ body.

Definition in_fragment (hs : list (pystr * pystr)) : bool :=
  forallb (fun h =>
    negb (bool_decide (str_lower (fst h) = py "content-type")) &&
    negb (bool_decide (str_lower (fst h) = py "content-transfer-encoding")) &&
    (Z.of_nat (length (fst h)) + 2 + Z.of_nat (length (snd h)) <=? 998)) hs.

(** [mboxMessage(string)], that is [email.message_from_bytes], and the three
    calls of the store on the result. *)
Definition mboxMessage (string : pybytes) : option Message :=
  if forallb (fun c => (c =? 10) || text_char c) string then
    match parse_headers (split_lines string) with
    | Some (hs, rest) =>
      if in_fragment hs then
        Some {| subject := HStr <$> header_get (py "subject") hs;
                payload := Some (concat rest);
                flat := inr (flatten hs (concat rest)) |}
      else None
    | None => None
    end
  else None.

(** [get_message(key)], given the byte range of the key: the envelope line is
    read with [readline], the rest of the range is parsed. *)
Definition get_message (file : pybytes) (range : Z * Z) : option Message :=
  let '(start, stop) := range in
  let '(first, after) := break_line (drop (Z.to_nat start) file) in
  if forallb (fun c => c <? 128) first then
    mboxMessage (take (Z.to_nat (stop - (start + Z.of_nat (length first)))) after)
  else None.

(** The entries of an mbox file, as the messages [list(mbox)] yields. *)
Definition read_mbox (file : pybytes) : option (list Message) :=
  mapM (get_message file) (toc_ranges file).

(** [message.replace(b'\nFrom ', b'\n>From ')] *)
Fixpoint mangle (b : pybytes) : pybytes :=
  match b with
  | [] => []
  | c :: r =>
    if (c =? 10) && starts_with From_ r then c :: 62 :: mangle r
    else c :: mangle r
  end.

Definition ends_with_newline (b : pybytes) : bool :=
  match last b with
  | Some c => c =? 10
  | None => false
  end.

(** [mbox.add(message)] for a [bytes] message, followed by [flush]: what the
    file holds afterwards.  [stamp] is [time.asctime(time.gmtime())]. *)
Definition mbox_add (file stamp message : pybytes) : pybytes :=
  let '(from_line, message1) :=
    if starts_with From_ message then
      let '(first, after) := break_line message in
      (if ends_with_newline first then removelast first else first, after)
    else (py "From MAILER-DAEMON " ++ stamp, message) in
  let data := mangle message1 in
  file ++ from_line ++ [10] ++ data
       ++ (if ends_with_newline data then [] else [10]) ++ [10].

(** A store freshly loaded from the octets of its Message File. *)
Definition load_bytes (name : pystr) (file : pybytes) : option IndexedMboxMailbox :=
  match read_mbox file with
  | Some msgs =>
    Some (snd (IndexedMboxMailbox_init {[ mbox_path name := msgs ]} name))
  | None => None
  end.

(** A message in the form the generator writes: fields [name: value] with
    printable values that do not start with a blank, a blank line, and a body
    of complete lines none of which starts with [From ]. *)
Record plain_message := mkPlain {
  fields : list (pystr * pystr);
  body : pystr
}.

Definition render (m : plain_message) : pybytes := flatten (fields m) (body m).

Definition wf_field (h : pystr * pystr) : bool :=
  negb (bool_decide (fst h = [])) &&
  forallb name_char (fst h) &&
  forallb text_char (snd h) &&
  negb (starts_with [32] (snd h)).

Definition wf_body (b : pybytes) : bool :=
  forallb (fun c => (c =? 10) || text_char c) b &&
  (bool_decide (b = []) || ends_with_newline b) &&
  forallb (fun l => negb (starts_with From_ l)) (split_lines b).

Definition canonical (m : plain_message) : bool :=
  forallb wf_field (fields m) && in_fragment (fields m) && wf_body (body m).

Definition wf_stamp (stamp : pybytes) : bool := forallb text_char stamp.

(** The file after the messages were added, one after the other. *)
Definition add_all (file : pybytes) (items : list (pybytes * plain_message))
  : pybytes :=
  fold_left (fun f item => mbox_add f (fst item) (render (snd item))) items file.

(** The handle that the parser builds for a message of that form. *)
Definition plain_handle (m : plain_message) : Message :=
  {| subject := HStr <$> header_get (py "subject") (fields m);
     payload := Some (body m);
     flat := inr (render m) |}.

(** ** Sample folders *)

Definition nl : string := String (ascii_of_nat 10) EmptyString.

(** A message with a subject and a one-line body. *)
Definition letter (subj text : string) : plain_message :=
  {| fields := [(py "Subject", py subj)]; body := py (text ++ nl) |}.

Definition msgA : Message := plain_handle (letter "A" "alpha").
Definition msgB : Message := plain_handle (letter "B" "beta").
Definition msgC : Message := plain_handle (letter "C" "gamma").
Definition invoice : Message := plain_handle (letter "Invoice #4" "thanks").

(** A multipart message: [get_payload(decode=True)] is [None]. *)
Definition multipart_report : Message :=
  {| subject := Some (HStr (py "Report"));
     payload := None;
     flat := inr (py ("Subject: Report" ++ nl
                      ++ "Content-Type: multipart/mixed; boundary=x" ++ nl ++ nl
                      ++ "--x" ++ nl ++ nl ++ "refund enclosed" ++ nl
                      ++ "--x--" ++ nl)) |}.

(** A message whose Subject line holds the octet 0xE9: [get] returns a
    [Header] object. *)
Definition latin1_subject : Message :=
  {| subject := Some (HHeader (py "caf" ++ [233]));
     payload := Some (py ("body" ++ nl));
     flat := inr (py ("Subject: =?unknown-8bit?q?caf=E9?=" ++ nl ++ nl
                      ++ "body" ++ nl)) |}.

(** A message with the field [Content-Type: text/plain; charset=bogus] and
    the body [caf], octet 0xE9, newline: [as_string] raises [LookupError]. *)
Definition unknown_charset : Message :=
  {| subject := Some (HStr (py "hi"));
     payload := Some (py "caf" ++ [233; 10]);
     flat := inl LookupError |}.

(** A file system with one folder, and the store opened on it. *)
Definition single_folder (name : pystr) (msgs : list Message) : FS :=
  {[ mbox_path name := msgs ]}.

Definition open_folder (name : pystr) (msgs : list Message)
  : FS * IndexedMboxMailbox :=
  IndexedMboxMailbox_init (single_folder name msgs) name.

Definition inbox : pystr := py "INBOX".

(** An Account Directory right after [MboxUser()], on an empty disk. *)
Definition empty_world : World := {| fs := ∅; heap := [] |}.
Definition fresh_account : World * MboxUser := MboxUser_init empty_world.

(** The message [Subject:hi], without the blank after the colon. *)
Definition terse : pybytes := py ("Subject:hi" ++ nl ++ nl ++ "body" ++ nl).
Definition asctime : pybytes := py "Wed Nov  4 02:05:53 2026".

(** The messages that the loop of [search] keeps. *)
Definition matches (q : pystr) (msg : Message) : bool :=
  match search_test q msg with
  | inr b => b
  | inl _ => false
  end.

Definition has_text_subject (msg : Message) : bool :=
  match get_subject msg with
  | HStr _ => true
  | HHeader _ => false
  end.

(** The entry that [mbox_add] writes for a message in that form, and the
    byte ranges of entries laid end to end from [pos] on: each range stops
    short of the blank line that closes its entry. *)
Definition entry (item : pybytes * plain_message) : pybytes :=
  (py "From MAILER-DAEMON " ++ fst item) ++ [10] ++ render (snd item) ++ [10].

Fixpoint entry_ranges (pos : Z) (es : list pybytes) : list (Z * Z) :=
  match es with
  | [] => []
  | e :: es' =>
    (pos, pos + Z.of_nat (length e) - 1)
      :: entry_ranges (pos + Z.of_nat (length e)) es'
  end.

Definition no_from (l : pybytes) : bool := negb (starts_with From_ l).

Definition well_formed (items : list (pybytes * plain_message)) : bool :=
  forallb (fun item => wf_stamp (fst item) && canonical (snd item)) items.

(** Octets that end a line, or none at all. *)
Definition complete (b : pybytes) : Prop := b = [] \/ ends_with_newline b = true.

(** ** The other methods of the store and of the account *)

(** [imap4.MessageSet(msg_id)]: the set that holds this one number. *)
Inductive MessageSet :=
  | MessageSet_of (msg_id : Z).

(** [fetch]:
    [[imap4.MessageSet(msg_id) for msg_id in messages if msg_id in self.index]].
    [uid] is not looked at. *)
Definition fetch (self : IndexedMboxMailbox) (msg_ids : list Z) (uid : bool)
  : outcome (list MessageSet) :=
  Succeed (map MessageSet_of
             (List.filter (fun msg_id => dict_contains msg_id (index self)) msg_ids)).

Definition with_listeners (self : IndexedMboxMailbox) (ls : list Z)
  : IndexedMboxMailbox :=
  {| folder_name := folder_name self;
     mbox_file := mbox_file self;
     mbox := mbox self;
     listeners := ls;
     messages := messages self;
     index := index self |}.

(** [addListener]: [self.listeners.append(listener)].  A listener is an
    object; the embedding keeps its identity as a number. *)
Definition addListener (self : IndexedMboxMailbox) (listener : Z)
  : IndexedMboxMailbox :=
  with_listeners self (listeners self ++ [listener]).

(** [list.remove(x)]: the first occurrence goes; [None] stands for the
    [ValueError] of a list without [x]. *)
Fixpoint list_remove (x : Z) (l : list Z) : option (list Z) :=
  match l with
  | [] => None
  | y :: l' => if x =? y then Some l' else cons y <$> list_remove x l'
  end.

(** [removeListener]: [self.listeners.remove(listener)]; [None] when
    [ValueError] is raised. *)
Definition removeListener (self : IndexedMboxMailbox) (listener : Z)
  : option IndexedMboxMailbox :=
  with_listeners self <$> list_remove listener (listeners self).

(** [addMailbox]: [self.mailboxes[name] = mbox] *)
Definition addMailbox (self : MboxUser) (name : pystr) (l : nat) : MboxUser :=
  {| mailboxes := <[name := l]> (mailboxes self) |}.

(** [listMailboxes]: [list(self.mailboxes.keys())]; [ref] and [wildcard] are
    not looked at.  The embedding of the dict does not keep the order of
    insertion, so the names come in the order of the map. *)
Definition listMailboxes (self : MboxUser) (ref wildcard : pystr)
  : outcome (list pystr) :=
  Succeed (map fst (map_to_list (mailboxes self))).

(** [MboxIMAPFactory.buildProtocol]: every connection gets an account of its
    own, [MboxIMAPServer(MboxUser())]. *)
Definition buildProtocol (w : World) : option (exn + World * MboxUser) :=
  MboxUser_new w.

(** Does the test of [search] raise on this message? *)
Definition raises_on (q : pystr) (msg : Message) : bool :=
  match search_test q msg with
  | inl _ => true
  | inr _ => false
  end.

(** A [str] holds code points of Unicode. *)
Definition valid_str (s : pystr) : bool :=
  forallb (fun c => (0 <=? c) && (c <=? 1114111)) s.

(** Text in ASCII, where [lower_cp] is [str.lower]: a query, and a message
    whose subject and decoded body are such text. *)
Definition is_ascii (s : pystr) : bool :=
  forallb (fun c => (0 <=? c) && (c <? 128)) s.

Definition ascii_message (msg : Message) : bool :=
  match get_subject msg with
  | HStr subj => is_ascii subj
  | HHeader _ => true
  end
  && match get_payload_decode msg with
     | Some b => is_ascii (bytes_decode_ignore b)
     | None => true
     end.

Definition ascii_folder (self : IndexedMboxMailbox) : bool :=
  forallb (fun im => ascii_message (snd im)) (index self).

(** Two messages that [search] cannot tell apart: their subjects and their
    decoded bodies differ in the case of letters at most. *)
Definition same_text (msg msg' : Message) : bool :=
  match get_subject msg, get_subject msg' with
  | HStr subj, HStr subj' => bool_decide (str_lower subj = str_lower subj')
  | HHeader _, HHeader _ => true
  | _, _ => false
  end
  && match get_payload_decode msg, get_payload_decode msg' with
     | Some b, Some b' =>
       bool_decide (str_lower (bytes_decode_ignore b)
                    = str_lower (bytes_decode_ignore b'))
     | None, None => true
     | _, _ => false
     end.

Fixpoint same_folder (d d' : list (Z * Message)) : bool :=
  match d, d' with
  | [], [] => true
  | (k, msg) :: r, (k', msg') :: r' =>
    (k =? k') && same_text msg msg' && same_folder r r'
  | _, _ => false
  end.

(** The text of [as_string], when it returns, holds code points. *)
Definition valid_text (msg : Message) : bool :=
  match as_string msg with
  | inr text => valid_str text
  | inl _ => true
  end.

(** The references of the account point into the heap of stores. *)
Definition live (w : World) (self : MboxUser) : bool :=
  forallb (fun pl => snd pl <? length (heap w))%nat (map_to_list (mailboxes self)).

(** The calls of a run whose write, if any, reaches the disk. *)
Definition reliable (req : request) : bool :=
  match req with
  | ReqDelete disk_ok _ => disk_ok
  | _ => true
  end.

(** ** Invariants *)

(** The index is the enumeration of the message list. *)
Definition consistent (self : IndexedMboxMailbox) : Prop :=
  index self = index_of (messages self).

(** The keys of a table increase strictly. *)
Definition keys_increasing {A} (d : list (Z * A)) : Prop :=
  StronglySorted Z.lt (map fst d).

(** The store and its file agree: the table is built and has nothing
    pending, the message list is what the table holds, and the file holds
    the same entries. *)
Definition in_sync (fs0 : FS) (self : IndexedMboxMailbox) : Prop :=
  exists t,
    toc (mbox self) = Some t /\ keys_increasing t /\
    pending (mbox self) = false /\
    messages self = map snd t /\
    index self = index_of (messages self) /\
    fs0 !! path (mbox self) = Some (map snd t).

(** * Properties *)

(** ** The index as an enumeration *)

Section Enumerate.
Context {A : Type}.
Implicit Types (l : list A) (i k : Z).

Lemma enumerate_keys i l :
  map fst (enumerate_from i l) = seqZ i (Z.of_nat (length l)).
Proof.
  revert i; induction l as [|x l IH]; intros i; simpl.
  - reflexivity.
  - rewrite seqZ_cons by lia. rewrite IH. f_equal. f_equal; lia.
Qed.

Lemma enumerate_values i l : map snd (enumerate_from i l) = l.
Proof.
  revert i; induction l as [|x l IH]; intros i; simpl; [|rewrite IH]; reflexivity.
Qed.

Lemma enumerate_shift i l :
  map (fun im => (fst im + 1, snd im)) (enumerate_from i l)
  = enumerate_from (i + 1) l.
Proof.
  revert i; induction l as [|x l IH]; intros i; simpl; [|rewrite IH]; reflexivity.
Qed.

Lemma enumerate_length i l : length (enumerate_from i l) = length l.
Proof.
  revert i; induction l as [|x l IH]; intros i; simpl; [|rewrite IH]; reflexivity.
Qed.

Lemma dict_get_enumerate i l k :
  dict_get k (enumerate_from i l)
  = if bool_decide (i <= k) then l !! Z.to_nat (k - i) else None.
Proof.
  revert i; induction l as [|x l IH]; intros i; simpl.
  - case_bool_decide; reflexivity.
  - destruct (Z.eqb_spec k i) as [->|Hne].
    + rewrite bool_decide_eq_true_2 by lia. rewrite Z.sub_diag. reflexivity.
    + rewrite IH. repeat case_bool_decide; try lia; try reflexivity.
      replace (Z.to_nat (k - i)) with (S (Z.to_nat (k - (i + 1)))) by lia.
      reflexivity.
Qed.

Lemma dict_get_fresh i l k : k < i -> dict_get k (enumerate_from i l) = None.
Proof.
  intros Hk. rewrite dict_get_enumerate. rewrite bool_decide_eq_false_2 by lia.
  reflexivity.
Qed.

End Enumerate.

Lemma index_of_enumerate msgs : index_of msgs = enumerate_from 1 msgs.
Proof. unfold index_of. rewrite enumerate_shift. reflexivity. Qed.

Lemma index_of_get msgs k :
  dict_get k (index_of msgs)
  = if bool_decide (1 <= k) then msgs !! Z.to_nat (k - 1) else None.
Proof. rewrite index_of_enumerate. apply dict_get_enumerate. Qed.

Lemma index_of_contains msgs k :
  dict_contains k (index_of msgs) = true <-> 1 <= k <= Z.of_nat (length msgs).
Proof.
  unfold dict_contains. rewrite index_of_get.
  case_bool_decide as Hk.
  - destruct (msgs !! Z.to_nat (k - 1)) as [m|] eqn:E.
    + apply lookup_lt_Some in E. split; [lia|reflexivity].
    + apply lookup_ge_None in E. split; [discriminate|lia].
  - split; [discriminate|lia].
Qed.

(** ** The store keeps its index and its message list in step *)

Lemma load_index_consistent fs0 self : consistent (_load_index fs0 self).
Proof. unfold consistent, _load_index. destruct (mbox_values _ _). reflexivity. Qed.

Lemma init_consistent fs0 name : consistent (snd (IndexedMboxMailbox_init fs0 name)).
Proof.
  unfold IndexedMboxMailbox_init. destruct (mbox_open _ _). simpl.
  apply load_index_consistent.
Qed.

Lemma deleteMessage_consistent disk_ok fs0 self message_id :
  consistent self -> consistent (snd (deleteMessage disk_ok fs0 self message_id)).
Proof.
  intros Hc. unfold deleteMessage.
  destruct (dict_contains message_id (index self)); [|exact Hc].
  destruct (mbox_remove _ _ _) as [[e|] mb1]; [exact Hc|].
  destruct (mbox_flush _ _ _) as [[[e|] fs2] mb2]; [exact Hc|].
  apply load_index_consistent.
Qed.

Lemma serve_consistent st req : consistent (snd st) -> consistent (snd (serve st req)).
Proof.
  intros Hc. destruct req; simpl; try exact Hc.
  pose proof (deleteMessage_consistent disk_ok (fst st) (snd st) message_id Hc) as H.
  destruct (deleteMessage _ _ _ _) as [[r fs1] s1]. exact H.
Qed.

Lemma serve_all_consistent reqs st :
  consistent (snd st) -> consistent (snd (serve_all st reqs)).
Proof.
  unfold serve_all. revert st. induction reqs as [|req reqs IH]; intros st Hc; simpl.
  - exact Hc.
  - apply IH, serve_consistent, Hc.
Qed.

Lemma consistent_dense self :
  consistent self -> dense self (Z.of_nat (length (messages self))).
Proof.
  intros Hc. unfold dense. rewrite Hc. split.
  - rewrite index_of_enumerate. apply enumerate_keys.
  - intros k. apply index_of_contains.
Qed.

(** ** What a fresh store holds *)

Lemma file_of_open fs0 p : file_of (fst (mbox_open fs0 p)) p = file_of fs0 p.
Proof.
  unfold mbox_open, file_of; simpl. destruct (fs0 !! p) eqn:E.
  - rewrite E. reflexivity.
  - rewrite lookup_insert_eq. reflexivity.
Qed.

Lemma init_messages fs0 name :
  messages (snd (IndexedMboxMailbox_init fs0 name)) = file_of fs0 (mbox_path name).
Proof.
  unfold IndexedMboxMailbox_init.
  pose proof (file_of_open fs0 (mbox_path name)) as Hf.
  destruct (mbox_open fs0 (mbox_path name)) as [fs1 mb] eqn:E.
  assert (Hmb : mb = {| path := mbox_path name; toc := None;
                        next_key := 0; pending := false |}).
  { unfold mbox_open in E. congruence. }
  subst mb. simpl in *. unfold lookup_toc, generate_toc, toc_items; simpl.
  rewrite enumerate_values. exact Hf.
Qed.

Lemma init_store fs0 name :
  snd (IndexedMboxMailbox_init fs0 name)
  = {| folder_name := name;
       mbox_file := mbox_path name;
       mbox := {| path := mbox_path name;
                  toc := Some (enumerate_from 0 (file_of fs0 (mbox_path name)));
                  next_key := Z.of_nat (length (file_of fs0 (mbox_path name)));
                  pending := false |};
       listeners := [];
       messages := file_of fs0 (mbox_path name);
       index := index_of (file_of fs0 (mbox_path name)) |}.
Proof.
  unfold IndexedMboxMailbox_init.
  pose proof (file_of_open fs0 (mbox_path name)) as Hf.
  destruct (mbox_open fs0 (mbox_path name)) as [fs1 mb] eqn:E.
  assert (Hmb : mb = {| path := mbox_path name; toc := None;
                        next_key := 0; pending := false |}).
  { unfold mbox_open in E. congruence. }
  subst mb. simpl in *.
  unfold _load_index, mbox_values, lookup_toc, generate_toc, toc_items; simpl.
  rewrite enumerate_values, Hf. reflexivity.
Qed.

Lemma init_index fs0 name :
  index (snd (IndexedMboxMailbox_init fs0 name))
  = enumerate_from 1 (file_of fs0 (mbox_path name)).
Proof.
  rewrite (init_consistent fs0 name), init_messages. apply index_of_enumerate.
Qed.

(** C5: after [__init__] and after any run of calls, whatever each delete
    did (success, not found, a key error, a failed write), [getMessageCount]
    succeeds with some [n] and the identifiers of the index are exactly
    1, ..., [n]; a fresh store numbers the messages of its file in file
    order, from 1. *)
Theorem identifier_density (fs0 : FS) (name : pystr) (reqs : list request) :
  let fresh := IndexedMboxMailbox_init fs0 name in
  let self := snd (serve_all fresh reqs) in
  index (snd fresh) = enumerate_from 1 (file_of fs0 (mbox_path name)) /\
  exists n, getMessageCount self = Succeed n /\ dense self n.
Proof.
  intros fresh self. split; [apply init_index|].
  exists (Z.of_nat (length (messages self))). split; [reflexivity|].
  apply consistent_dense, serve_all_consistent, init_consistent.
Qed.

(** C7: for an identifier that is not in the index, [fetchMessage] fails with
    the not-found condition and returns no octets, and [deleteMessage] fails
    with it as well and leaves the store and the file system as they were. *)
Theorem not_found_contract (disk_ok : bool) (fs0 : FS)
    (self : IndexedMboxMailbox) (message_id : Z) :
  dict_contains message_id (index self) = false ->
  fetchMessage self message_id = Fail not_found /\
  deleteMessage disk_ok fs0 self message_id = (Fail not_found, fs0, self).
Proof.
  intros Hid. unfold fetchMessage, deleteMessage. rewrite Hid.
  unfold dict_contains in Hid.
  destruct (dict_get message_id (index self)); [discriminate|].
  split; reflexivity.
Qed.

Lemma not_found_contract_witness :
  dict_contains 999 (index (snd (open_folder inbox [msgA; msgB]))) = false /\
  fetchMessage (snd (open_folder inbox [msgA; msgB])) 999 = Fail not_found /\
  deleteMessage true (fst (open_folder inbox [msgA; msgB]))
                (snd (open_folder inbox [msgA; msgB])) 999
  = (Fail not_found, fst (open_folder inbox [msgA; msgB]),
     snd (open_folder inbox [msgA; msgB])).
Proof.
  split; [vm_compute; reflexivity|].
  apply (not_found_contract true); vm_compute; reflexivity.
Defined.

(** ** Deleting *)

Lemma lookup_toc_path fs0 mb : path (lookup_toc fs0 mb) = path mb.
Proof. unfold lookup_toc. destruct (toc mb); reflexivity. Qed.

(** C6: for an identifier of the index, a delete whose write fails raises
    (the error reaches the caller) and leaves the index, the message list and
    the file as they were; a delete that succeeds has written the file and
    rebuilt the index from it.  No delete of a present identifier ends in the
    not-found failure. *)
Theorem delete_atomic (disk_ok : bool) (fs0 : FS) (self : IndexedMboxMailbox)
    (message_id : Z) :
  dict_contains message_id (index self) = true ->
  let '(r, fs1, self1) := deleteMessage disk_ok fs0 self message_id in
  (disk_ok = false -> exists e, r = Raise e) /\
  match r with
  | Succeed _ =>
    disk_ok = true /\
    fs1 !! path (mbox self) = Some (messages self1) /\
    index self1 = index_of (messages self1)
  | Raise e =>
    (e = OSError /\ disk_ok = false \/ e = KeyError) /\
    fs1 = fs0 /\ index self1 = index self /\ messages self1 = messages self
  | Fail _ => False
  end.
Proof.
  intros Hid. unfold deleteMessage. rewrite Hid.
  unfold mbox_remove.
  destruct (dict_contains (message_id - 1) (toc_items (lookup_toc fs0 (mbox self)))).
  - unfold mbox_flush; simpl. destruct disk_ok; simpl.
    + split; [discriminate|]. split; [reflexivity|].
      rewrite lookup_toc_path, lookup_insert_eq. split; reflexivity.
    + split; [eauto|]. repeat split; auto.
  - split; [eauto|]. repeat split; auto.
Qed.

Lemma delete_atomic_witness :
  dict_contains 2 (index (snd (open_folder inbox [msgA; msgB; msgC]))) = true /\
  let '(r, fs1, self1) :=
    deleteMessage false (fst (open_folder inbox [msgA; msgB; msgC]))
                  (snd (open_folder inbox [msgA; msgB; msgC])) 2 in
  r = Raise OSError /\
  index self1 = index (snd (open_folder inbox [msgA; msgB; msgC])).
Proof.
  split; [vm_compute; reflexivity|].
  pose proof (delete_atomic false (fst (open_folder inbox [msgA; msgB; msgC]))
                (snd (open_folder inbox [msgA; msgB; msgC])) 2) as H.
  destruct (deleteMessage _ _ _ _) as [[r fs1] self1] eqn:E.
  assert (Hr : r = Raise OSError).
  { vm_compute in E. congruence. }
  subst r. destruct H as [_ (_ & _ & Hi & _)]; [vm_compute; reflexivity|].
  split; [reflexivity|exact Hi].
Defined.

(** Sorting a table whose keys increase changes nothing. *)

Lemma insert_by_key_head {A} (kv : Z * A) (d : list (Z * A)) :
  Forall (Z.lt (fst kv)) (map fst d) -> insert_by_key kv d = kv :: d.
Proof.
  destruct d as [|kv' d]; simpl; [reflexivity|].
  intros H. inversion H; subst.
  destruct (Z.leb_spec (fst kv) (fst kv')); [reflexivity|lia].
Qed.

Lemma sort_by_key_sorted {A} (d : list (Z * A)) :
  keys_increasing d -> sort_by_key d = d.
Proof.
  unfold keys_increasing. induction d as [|kv d IH]; simpl; intros H.
  - reflexivity.
  - inversion H; subst. rewrite IH by assumption.
    apply insert_by_key_head. assumption.
Qed.

Lemma dict_del_keys_Forall {A} (P : Z -> Prop) k (d : list (Z * A)) :
  Forall P (map fst d) -> Forall P (map fst (dict_del k d)).
Proof.
  induction d as [|[k' v] d IH]; simpl; intros H; [constructor|].
  inversion H; subst. destruct (k =? k'); [assumption|].
  simpl. constructor; auto.
Qed.

Lemma dict_del_increasing {A} k (d : list (Z * A)) :
  keys_increasing d -> keys_increasing (dict_del k d).
Proof.
  unfold keys_increasing. induction d as [|[k' v] d IH]; simpl; intros H.
  - constructor.
  - inversion H; subst. destruct (k =? k'); [assumption|].
    simpl. constructor; [auto|]. apply dict_del_keys_Forall. assumption.
Qed.

Lemma enumerate_increasing {A} i (l : list A) : keys_increasing (enumerate_from i l).
Proof.
  unfold keys_increasing. revert i. induction l as [|x l IH]; intros i; simpl.
  - constructor.
  - constructor; [apply IH|].
    rewrite enumerate_keys. apply Forall_forall. intros k Hk.
    apply elem_of_seqZ in Hk. lia.
Qed.

Lemma dict_del_enumerate {A} i (l : list A) k :
  i <= k ->
  map snd (dict_del k (enumerate_from i l)) = delete (Z.to_nat (k - i)) l.
Proof.
  revert i. induction l as [|x l IH]; intros i Hk; simpl; [reflexivity|].
  destruct (Z.eqb_spec k i) as [->|Hne].
  - rewrite Z.sub_diag. simpl. apply enumerate_values.
  - simpl. rewrite IH by lia.
    replace (Z.to_nat (k - i)) with (S (Z.to_nat (k - (i + 1)))) by lia.
    reflexivity.
Qed.

(** The first delete on a freshly opened store does what the caller asks:
    the message at that identifier leaves the file and the index, the others
    keep their order and are numbered from 1. *)
Lemma delete_on_fresh_store (fs0 : FS) (name : pystr) (message_id : Z) :
  let fresh := IndexedMboxMailbox_init fs0 name in
  let entries := file_of fs0 (mbox_path name) in
  dict_contains message_id (index (snd fresh)) = true ->
  let '(r, fs1, self1) := deleteMessage true (fst fresh) (snd fresh) message_id in
  r = Succeed true /\
  messages self1 = delete (Z.to_nat (message_id - 1)) entries /\
  index self1 = enumerate_from 1 (delete (Z.to_nat (message_id - 1)) entries) /\
  fs1 !! mbox_path name = Some (delete (Z.to_nat (message_id - 1)) entries).
Proof.
  intros fresh entries Hid.
  assert (Hrange : 1 <= message_id <= Z.of_nat (length entries)).
  { subst fresh entries. rewrite (init_consistent fs0 name), init_messages in Hid.
    apply index_of_contains in Hid. exact Hid. }
  assert (Hin : dict_contains (message_id - 1) (enumerate_from 0 entries) = true).
  { unfold dict_contains. rewrite dict_get_enumerate.
    rewrite bool_decide_eq_true_2 by lia.
    destruct (entries !! Z.to_nat (message_id - 1 - 0)) eqn:El; [reflexivity|].
    apply lookup_ge_None in El. lia. }
  subst fresh. unfold deleteMessage. rewrite Hid. clear Hid.
  rewrite init_store. fold entries.
  unfold mbox_remove, lookup_toc, toc_items; simpl. rewrite Hin.
  unfold mbox_flush, _load_index, mbox_values, lookup_toc, toc_items; simpl.
  rewrite sort_by_key_sorted
    by (apply dict_del_increasing, enumerate_increasing).
  rewrite dict_del_enumerate by lia.
  replace (message_id - 1 - 0) with (message_id - 1) by lia.
  repeat split.
  - apply index_of_enumerate.
  - apply lookup_insert_eq.
Qed.

(** C1, at a folder [A, B, C] of any three messages: the first delete, of
    identifier 1, leaves [B, C] under the identifiers 1 and 2.  The second
    delete asks for identifier 2, which is C; the store removes B, and C is
    what remains in the index and in the file.  A third delete, of
    identifier 1 (now C), raises [KeyError]. *)
Theorem delete_after_delete_misses (A B C : Message) :
  let st0 := open_folder inbox [A; B; C] in
  let '(r1, fs1, s1) := deleteMessage true (fst st0) (snd st0) 1 in
  let '(r2, fs2, s2) := deleteMessage true fs1 s1 2 in
  let '(r3, fs3, s3) := deleteMessage true fs2 s2 1 in
  index (snd st0) = [(1, A); (2, B); (3, C)] /\
  r1 = Succeed true /\ index s1 = [(1, B); (2, C)] /\
  r2 = Succeed true /\ index s2 = [(1, C)] /\
  fs2 !! mbox_path inbox = Some [C] /\
  dict_contains 1 (index s2) = true /\ r3 = Raise KeyError.
Proof. vm_compute. repeat split. Qed.

(** ** Searching *)

Lemma is_prefix_spec p s : is_prefix p s = true <-> exists t, s = p ++ t.
Proof.
  revert s. induction p as [|a p IH]; intros s; simpl.
  - split; eauto.
  - destruct s as [|b s].
    + split; [discriminate|]. intros [t Ht]. discriminate.
    + rewrite andb_true_iff, IH, Z.eqb_eq. split.
      * intros [-> [t ->]]. eauto.
      * intros [t Ht]. injection Ht as -> ->. eauto.
Qed.

(** [p in s] holds exactly when [p] is a contiguous part of [s]. *)
Lemma str_contains_spec p s :
  str_contains p s = true <-> exists before after, s = before ++ p ++ after.
Proof.
  induction s as [|c s IH]; simpl.
  - rewrite orb_false_r, is_prefix_spec. split.
    + intros [t Ht]. exists [], t. exact Ht.
    + intros (b & a & H). destruct b; simpl in H.
      * eauto.
      * discriminate.
  - rewrite orb_true_iff, is_prefix_spec, IH. split.
    + intros [[t Ht]|(b & a & ->)].
      * exists [], t. exact Ht.
      * exists (c :: b), a. reflexivity.
    + intros (b & a & H). destruct b as [|c' b]; simpl in H.
      * left. eauto.
      * right. injection H as -> ->. eauto.
Qed.

Lemma str_contains_ci q s :
  str_contains (str_lower q) (str_lower s) = true <-> ci_substring q s.
Proof. apply str_contains_spec. Qed.

(** On a plain message the test of the loop does not raise, and it holds
    exactly for a match of the specification. *)
Lemma search_test_plain q msg :
  is_plain msg = true ->
  search_test q msg = inr (matches q msg) /\
  (matches q msg = true <-> spec_match q msg).
Proof.
  unfold is_plain, matches, search_test, spec_match, subject_text, body_text.
  destruct (get_subject msg) as [subj|raw]; [|discriminate].
  destruct (get_payload_decode msg) as [b|]; [|discriminate]. intros _.
  destruct (str_contains (str_lower q) (str_lower subj)) eqn:Es.
  - split; [reflexivity|]. split; [|reflexivity].
    intros _. left. apply str_contains_ci, Es.
  - split; [reflexivity|]. rewrite str_contains_ci. split; [auto|].
    intros [H|H]; [|exact H]. apply str_contains_ci in H. congruence.
Qed.

Lemma search_loop_plain q items acc :
  Forall (fun im => is_plain (snd im) = true) items ->
  search_loop q items acc
  = Succeed (acc ++ map fst (filter (fun im => matches q (snd im) = true) items)).
Proof.
  revert acc. induction items as [|[k msg] items IH]; intros acc H; simpl.
  - rewrite app_nil_r. reflexivity.
  - inversion H as [|? ? Hp Hrest]; subst. simpl in Hp.
    destruct (search_test_plain q msg Hp) as [-> _].
    rewrite filter_cons. simpl. destruct (matches q msg) eqn:Em.
    + rewrite decide_True by reflexivity. rewrite IH by assumption.
      simpl. rewrite <- app_assoc. reflexivity.
    + rewrite decide_False by discriminate. apply IH. assumption.
Qed.

Lemma Forall_enumerate {A} (P : A -> Prop) i (l : list A) :
  Forall P l -> Forall (fun im => P (snd im)) (enumerate_from i l).
Proof.
  revert i. induction l as [|x l IH]; intros i H; simpl; [constructor|].
  inversion H; subst. constructor; auto.
Qed.

Lemma dict_get_elem {A} (d : list (Z * A)) k v :
  keys_increasing d -> ((k, v) ∈ d <-> dict_get k d = Some v).
Proof.
  unfold keys_increasing. induction d as [|[k' v'] d IH]; simpl; intros Hs.
  - split; [intros H; inversion H|discriminate].
  - inversion Hs as [|? ? Hs' Hlt]; subst. rewrite elem_of_cons.
    destruct (Z.eqb_spec k k') as [->|Hne].
    + split.
      * intros [H|H]; [congruence|]. exfalso.
        rewrite Forall_forall in Hlt.
        assert (k' ∈ map fst d) as Hin.
        { apply list_elem_of_fmap. exists (k', v). split; [reflexivity|exact H]. }
        apply Hlt in Hin. lia.
      * intros H. left. congruence.
    + rewrite <- IH by assumption. split.
      * intros [H|H]; [congruence|exact H].
      * auto.
Qed.

Lemma filter_increasing {A} (P : Z * A -> Prop) `{!forall x, Decision (P x)}
    (d : list (Z * A)) :
  keys_increasing d -> StronglySorted Z.lt (map fst (filter P d)).
Proof.
  unfold keys_increasing. induction d as [|[k m] d IH]; intros Hs.
  - constructor.
  - inversion Hs as [|? ? Hs' Hlt]; subst. rewrite filter_cons.
    destruct (decide _); simpl; [|apply IH; assumption].
    constructor; [apply IH; assumption|].
    rewrite Forall_forall in *. intros x Hx. apply Hlt.
    apply list_elem_of_fmap in Hx as ([k' m'] & -> & Hx).
    apply list_elem_of_filter in Hx as [_ Hx].
    apply list_elem_of_fmap. exists (k', m'). auto.
Qed.

(** On a folder of plain messages [search] succeeds with exactly the
    identifiers of the matching messages, in ascending order. *)
Lemma search_plain_folder (self : IndexedMboxMailbox) (q : pystr) :
  consistent self ->
  Forall (fun msg => is_plain msg = true) (messages self) ->
  exists ids,
    search self q = Succeed ids /\
    StronglySorted Z.lt ids /\
    forall k, k ∈ ids <->
      exists msg, dict_get k (index self) = Some msg /\ spec_match q msg.
Proof.
  intros Hc Hp. unfold search. rewrite Hc, index_of_enumerate.
  set (items := enumerate_from 1 (messages self)).
  assert (Hitems : Forall (fun im => is_plain (snd im) = true) items).
  { apply (Forall_enumerate (fun m => is_plain m = true)). exact Hp. }
  assert (Hinc : keys_increasing items) by apply enumerate_increasing.
  rewrite search_loop_plain by exact Hitems. simpl.
  eexists. split; [reflexivity|]. split.
  - apply filter_increasing. exact Hinc.
  - intros k. rewrite list_elem_of_fmap. split.
    + intros ([k' m] & -> & Hin). apply list_elem_of_filter in Hin as [Hm Hin].
      simpl in *. exists m. split; [apply dict_get_elem; assumption|].
      rewrite Forall_forall in Hitems. apply Hitems in Hin. simpl in Hin.
      apply (search_test_plain q m Hin). exact Hm.
    + intros (m & Hg & Hm). apply dict_get_elem in Hg; [|assumption].
      exists (k, m). split; [reflexivity|]. apply list_elem_of_filter. split; [|exact Hg].
      rewrite Forall_forall in Hitems. pose proof (Hitems _ Hg) as Hpl. simpl in *.
      apply (search_test_plain q m Hpl). exact Hm.
Qed.

(** A folder of plain messages never makes [search] raise. *)
Lemma search_plain_succeeds (self : IndexedMboxMailbox) (q : pystr) :
  Forall (fun im => is_plain (snd im) = true) (index self) ->
  exists ids, search self q = Succeed ids.
Proof.
  intros H. unfold search. rewrite search_loop_plain by exact H. eauto.
Qed.

(** C2, at the folder [multipart report; invoice] and the query "thanks":
    the first message has no single payload, so the specification counts it as
    not matching and asks for the answer [2]; the store raises
    [AttributeError].
    The same folder without the multipart message is searched without an
    error. *)
Theorem search_raises_on_multipart :
  search (snd (open_folder inbox [multipart_report; invoice])) (py "thanks")
  = Raise AttributeError /\
  search (snd (open_folder inbox [invoice])) (py "thanks") = Succeed [1].
Proof. vm_compute. split; reflexivity. Qed.

(** C4, on its own example and at a folder that holds a multipart message:
    the message "Invoice #4" with body "thanks" is found by "invoice" and by
    "THANKS" and not by "refund", and an empty folder gives the empty answer;
    with the multipart report in the folder, the query "refund", which no
    subject and no decoded body contains, is answered by [AttributeError]
    where the specification asks for the empty sequence. *)
Theorem search_example_and_multipart :
  search (snd (open_folder inbox [invoice])) (py "invoice") = Succeed [1] /\
  search (snd (open_folder inbox [invoice])) (py "THANKS") = Succeed [1] /\
  search (snd (open_folder inbox [invoice])) (py "refund") = Succeed [] /\
  search (snd (open_folder inbox [])) (py "refund") = Succeed [] /\
  search (snd (open_folder inbox [invoice; multipart_report])) (py "refund")
  = Raise AttributeError.
Proof. vm_compute. repeat split. Qed.

(** With the empty query the left operand of [or] holds for every subject
    that is text, so no body is looked at and every identifier is kept. *)
Lemma search_loop_empty_query items acc :
  Forall (fun im => has_text_subject (snd im) = true) items ->
  search_loop [] items acc = Succeed (acc ++ map fst items).
Proof.
  revert acc. induction items as [|[k msg] items IH]; intros acc H; simpl.
  - rewrite app_nil_r. reflexivity.
  - inversion H as [|? ? Hp Hrest]; subst. simpl in Hp.
    unfold search_test. unfold has_text_subject in Hp.
    destruct (get_subject msg) as [subj|raw]; [|discriminate]. simpl.
    replace (str_contains [] (str_lower subj)) with true
      by (destruct (str_lower subj); reflexivity).
    rewrite IH by assumption. rewrite <- app_assoc. reflexivity.
Qed.

Lemma search_empty_query (self : IndexedMboxMailbox) :
  Forall (fun im => has_text_subject (snd im) = true) (index self) ->
  search self (py "") = Succeed (map fst (index self)).
Proof. intros H. unfold search. apply search_loop_empty_query. exact H. Qed.

(** C10, at a folder whose single message carries raw non-ASCII octets in
    its Subject line: the empty query raises [AttributeError], where the
    answer [1] is due.  A multipart message is no obstacle: its
    body is not looked at. *)
Theorem search_empty_query_header_subject :
  search (snd (open_folder inbox [latin1_subject])) (py "")
  = Raise AttributeError /\
  search (snd (open_folder inbox [msgA; multipart_report; msgC])) (py "")
  = Succeed [1; 2; 3].
Proof. vm_compute. split; reflexivity. Qed.

(** ** The account *)

Lemma live_spec (w : World) (self : MboxUser) :
  live w self = true <->
  forall p l, mailboxes self !! p = Some l -> (l < length (heap w))%nat.
Proof.
  unfold live. rewrite forallb_forall. split.
  - intros H p l Hl. apply elem_of_map_to_list, list_elem_of_In, H in Hl.
    apply Nat.ltb_lt in Hl. exact Hl.
  - intros H [p l] Hin. apply list_elem_of_In, elem_of_map_to_list in Hin.
    apply Nat.ltb_lt. simpl. eapply H, Hin.
Qed.

Lemma new_opened (fs0 : FS) (name : pystr) (fs1 : FS) (s : IndexedMboxMailbox) :
  IndexedMboxMailbox_new fs0 name = Some (inr (fs1, s)) ->
  open_file fs0 name = Some Opened /\
  (fs1, s) = IndexedMboxMailbox_init fs0 name.
Proof.
  unfold IndexedMboxMailbox_new.
  destruct (open_file fs0 name) as [[|e]|]; [|discriminate..].
  intros H. split; [reflexivity|]. inversion H. reflexivity.
Qed.

(** A call made through a reference acts on the store at that reference:
    what a delete changed is what a count reads afterwards. *)
Lemma shared_store (disk_ok : bool) (w : World) (l : nat) (s : IndexedMboxMailbox)
    (message_id : Z) :
  heap w !! l = Some s ->
  let '(r, w1) := deleteMessage_at disk_ok w l message_id in
  getMessageCount_at w1 l
  = Some (getMessageCount (snd (deleteMessage disk_ok (fs w) s message_id))).
Proof.
  intros Hl. unfold deleteMessage_at, getMessageCount_at. rewrite Hl.
  destruct (deleteMessage _ _ _ _) as [[r fs1] s1]. simpl.
  rewrite list_lookup_insert_eq by (eapply lookup_lt_Some; eauto). reflexivity.
Qed.

Lemma select_bound (w : World) (self : MboxUser) (name : pybytes)
    (folder : pystr) (l : nat) :
  bytes_decode_utf8 name = Some folder -> mailboxes self !! folder = Some l ->
  select w self name = Some (Succeed l, w, self).
Proof. intros Hd Hl. unfold select. rewrite Hd, Hl. reflexivity. Qed.

Lemma delete_through (disk_ok : bool) (w : World) (self : MboxUser)
    (name : pybytes) (folder : pystr) (l : nat) (s : IndexedMboxMailbox)
    (message_id : Z) :
  bytes_decode_utf8 name = Some folder -> mailboxes self !! folder = Some l ->
  heap w !! l = Some s ->
  let '(res, fs2, s2) := deleteMessage disk_ok (fs w) s message_id in
  let w2 := snd (deleteMessage_at disk_ok w l message_id) in
  fst (deleteMessage_at disk_ok w l message_id) = Some res /\
  select w2 self name = Some (Succeed l, w2, self) /\
  heap w2 !! l = Some s2 /\
  getMessageCount_at w2 l = Some (getMessageCount s2).
Proof.
  intros Hd Hl Hs. unfold deleteMessage_at, getMessageCount_at. rewrite Hs.
  destruct (deleteMessage disk_ok (fs w) s message_id) as [[res fs2] s2].
  cbn [fst snd heap]. split; [reflexivity|].
  split; [apply (select_bound _ _ _ folder); assumption|].
  rewrite list_lookup_insert_eq by (eapply lookup_lt_Some; eauto).
  split; reflexivity.
Qed.

(** C8: a second [select] with the same name returns what the first one
    returned and changes neither the account nor the heap of stores, so no
    second store is built.  When the calls return a reference, it is bound to
    the name and points to a store of the heap; for a name that was not
    bound, this is the one new store, built from the file of the name.  A
    delete made through the reference changes the store that a later
    [select] of the name returns, and a count through that reference reads
    the change.  When the first call raises ([UnicodeDecodeError] for the
    name, or the exception of [open]), nothing is bound and nothing is
    built, and the second call raises the same. *)
Theorem select_idempotent (w : World) (self : MboxUser) (name : pybytes)
    (r : outcome nat) (w1 : World) (self1 : MboxUser) :
  live w self = true ->
  select w self name = Some (r, w1, self1) ->
  select w1 self1 name = Some (r, w1, self1) /\
  live w1 self1 = true /\
  match r with
  | Succeed l =>
    exists folder s,
      bytes_decode_utf8 name = Some folder /\
      mailboxes self1 !! folder = Some l /\
      heap w1 !! l = Some s /\
      (mailboxes self !! folder = None ->
       l = length (heap w) /\ heap w1 = heap w ++ [s] /\
       s = snd (IndexedMboxMailbox_init (fs w) folder)) /\
      forall disk_ok message_id,
        let '(res, fs2, s2) := deleteMessage disk_ok (fs w1) s message_id in
        let w2 := snd (deleteMessage_at disk_ok w1 l message_id) in
        fst (deleteMessage_at disk_ok w1 l message_id) = Some res /\
        select w2 self1 name = Some (Succeed l, w2, self1) /\
        heap w2 !! l = Some s2 /\
        getMessageCount_at w2 l = Some (getMessageCount s2)
  | Raise e => w1 = w /\ self1 = self
  | Fail _ => False
  end.
Proof.
  intros Hlive Hsel. pose proof Hsel as Hsel0. unfold select in Hsel.
  destruct (bytes_decode_utf8 name) as [folder|] eqn:Hd.
  - destruct (mailboxes self !! folder) as [l|] eqn:Hl.
    + injection Hsel as <- <- <-. split; [exact Hsel0|]. split; [exact Hlive|].
      pose proof (proj1 (live_spec w self) Hlive folder l Hl) as Hlt.
      destruct (lookup_lt_is_Some_2 (heap w) l Hlt) as [s Hs].
      exists folder, s. repeat split; try assumption; try congruence.
      intros disk_ok message_id.
      apply (delete_through disk_ok w self name folder l s message_id);
        assumption.
    + destruct (IndexedMboxMailbox_new (fs w) folder) as [[e|[fs1 s]]|] eqn:Hn;
        [| |discriminate].
      * injection Hsel as <- <- <-. split; [exact Hsel0|]. auto.
      * apply new_opened in Hn as [_ Hinit].
        unfold alloc in Hsel. injection Hsel as <- <- <-.
        assert (Hb : mailboxes {| mailboxes := <[folder := length (heap w)]>
                                                  (mailboxes self) |}
                       !! folder = Some (length (heap w)))
          by apply lookup_insert_eq.
        assert (Hs : (heap w ++ [s]) !! length (heap w) = Some s).
        { rewrite lookup_app_r by lia. rewrite Nat.sub_diag. reflexivity. }
        split; [apply (select_bound _ _ _ folder); assumption|].
        split.
        { apply live_spec. cbn [heap mailboxes]. intros p l' Hp.
          rewrite length_app. simpl.
          destruct (decide (p = folder)) as [->|Hne].
          - rewrite lookup_insert_eq in Hp. injection Hp as <-. lia.
          - rewrite lookup_insert_ne in Hp by congruence.
            apply (proj1 (live_spec w self) Hlive) in Hp. lia. }
        exists folder, s. split; [reflexivity|]. split; [exact Hb|].
        split; [exact Hs|]. split.
        { intros _. split; [reflexivity|]. split; [reflexivity|].
          rewrite <- Hinit. reflexivity. }
        intros disk_ok message_id.
        apply (delete_through disk_ok _ _ name folder _ s message_id);
          assumption.
  - injection Hsel as <- <- <-. split; [exact Hsel0|]. auto.
Qed.

Lemma select_idempotent_witness :
  let first := select (fst fresh_account) (snd fresh_account) (py "Archive") in
  let w1 := from_option (fun x => snd (fst x)) empty_world first in
  let self1 := from_option snd (snd fresh_account) first in
  live (fst fresh_account) (snd fresh_account) = true /\
  first = Some (Succeed 1%nat, w1, self1) /\
  select w1 self1 (py "Archive") = Some (Succeed 1%nat, w1, self1) /\
  getMessageCount_at w1 1 = Some (Succeed 0).
Proof.
  intros first w1 self1.
  assert (Hl : live (fst fresh_account) (snd fresh_account) = true)
    by (vm_compute; reflexivity).
  assert (H : first = Some (Succeed 1%nat, w1, self1))
    by (vm_compute; reflexivity).
  split; [exact Hl|]. split; [exact H|].
  split; [|vm_compute; reflexivity].
  exact (proj1 (select_idempotent (fst fresh_account) (snd fresh_account)
                  (py "Archive") (Succeed 1%nat) w1 self1 Hl H)).
Defined.

(** The accounts that the program builds keep their references in the heap:
    [MboxUser()] starts with it, and [create] and [delete] keep it, as
    [select] does. *)
Lemma MboxUser_init_live (w : World) :
  live (fst (MboxUser_init w)) (snd (MboxUser_init w)) = true.
Proof.
  unfold MboxUser_init.
  destruct (IndexedMboxMailbox_init (fs w) (py "INBOX")) as [fs1 s].
  cbn [alloc fst snd]. apply live_spec. cbn [heap mailboxes].
  intros p l Hl. apply lookup_singleton_Some in Hl as [_ <-].
  rewrite length_app. simpl. lia.
Qed.

Lemma create_live (w : World) (self : MboxUser) (p : pystr)
    (r : outcome bool) (w1 : World) (self1 : MboxUser) :
  live w self = true -> create w self p = Some (r, w1, self1) ->
  live w1 self1 = true.
Proof.
  intros Hlive Hc. unfold create in Hc.
  destruct (IndexedMboxMailbox_new (fs w) p) as [[e|[fs1 s]]|];
    [| |discriminate].
  - injection Hc as <- <- <-. exact Hlive.
  - unfold alloc in Hc. injection Hc as <- <- <-.
    apply live_spec. cbn [heap mailboxes]. intros p' l Hp.
    rewrite length_app. simpl.
    destruct (decide (p' = p)) as [->|Hne].
    + rewrite lookup_insert_eq in Hp. injection Hp as <-. lia.
    + rewrite lookup_insert_ne in Hp by congruence.
      apply (proj1 (live_spec w self) Hlive) in Hp. lia.
Qed.

Lemma delete_folder_live (w : World) (self : MboxUser) (p : pystr) :
  live w self = true -> live w (snd (delete_folder w self p)) = true.
Proof.
  intros Hlive. unfold delete_folder.
  destruct (mailboxes self !! p) eqn:El; [|exact Hlive].
  apply live_spec. cbn [snd mailboxes]. intros p' l Hp.
  apply lookup_delete_Some in Hp as [_ Hp].
  apply (proj1 (live_spec w self) Hlive) in Hp. exact Hp.
Qed.

(** *** Creating a folder *)





(** ** The octets that [fetchMessage] returns *)

(** C3 fails at the message [Subject:hi]: appended to an empty Message File
    and fetched after a fresh load, it comes back as [Subject: hi], one octet
    longer than what was appended. *)
Lemma fetch_not_byte_identical :
  exists self,
    load_bytes inbox (mbox_add [] asctime terse) = Some self /\
    fetchMessage self 1
    = Succeed (py ("Subject: hi" ++ nl ++ nl ++ "body" ++ nl)) /\
    fetchMessage self 1 <> Succeed terse.
Proof.
  eexists. split; [vm_compute; reflexivity|].
  vm_compute. split; [reflexivity|discriminate].
Qed.

(** *** Lines *)

Lemma split_lines_nil b : split_lines b = [] -> b = [].
Proof.
  destruct b as [|c b]; simpl; [reflexivity|].
  destruct (c =? 10); [discriminate|].
  destruct (split_lines b); discriminate.
Qed.

Lemma split_lines_line (l rest : pybytes) :
  Forall (fun c => c <> 10) l ->
  split_lines (l ++ 10 :: rest) = (l ++ [10]) :: split_lines rest.
Proof.
  induction l as [|c l IH]; intros H; simpl.
  - reflexivity.
  - inversion H as [|? ? Hc Hl]; subst.
    destruct (Z.eqb_spec c 10); [contradiction|].
    rewrite IH by assumption. reflexivity.
Qed.

Lemma break_line_line (l rest : pybytes) :
  Forall (fun c => c <> 10) l ->
  break_line (l ++ 10 :: rest) = (l ++ [10], rest).
Proof.
  induction l as [|c l IH]; intros H; simpl.
  - reflexivity.
  - inversion H as [|? ? Hc Hl]; subst.
    destruct (Z.eqb_spec c 10); [contradiction|].
    rewrite IH by assumption. reflexivity.
Qed.

Lemma concat_split_lines b : concat (split_lines b) = b.
Proof.
  induction b as [|c b IH]; simpl; [reflexivity|].
  destruct (c =? 10); simpl.
  - rewrite IH. reflexivity.
  - destruct (split_lines b) as [|l ls] eqn:E; simpl in *.
    + rewrite <- IH. reflexivity.
    + rewrite <- IH. reflexivity.
Qed.

Lemma ends_with_newline_cons c b :
  b <> [] -> ends_with_newline (c :: b) = ends_with_newline b.
Proof.
  intros Hb. unfold ends_with_newline. destruct b as [|c' b]; [contradiction|].
  reflexivity.
Qed.

Lemma complete_tail c b : complete (c :: b) -> complete b.
Proof.
  intros [H|H]; [discriminate|]. destruct b as [|c' b]; [left; reflexivity|].
  right. rewrite ends_with_newline_cons in H by discriminate. exact H.
Qed.

Lemma ends_with_newline_app b rest :
  ends_with_newline (b ++ rest ++ [10]) = true.
Proof.
  unfold ends_with_newline. rewrite !app_assoc, last_snoc. reflexivity.
Qed.

(** Complete lines are split independently of what follows them. *)
Lemma split_lines_app (b rest : pybytes) :
  complete b -> split_lines (b ++ rest) = split_lines b ++ split_lines rest.
Proof.
  induction b as [|c b IH]; intros Hc; simpl; [reflexivity|].
  pose proof (complete_tail c b Hc) as Hb.
  destruct (Z.eqb_spec c 10) as [->|Hne].
  - rewrite IH by assumption. reflexivity.
  - rewrite IH by assumption.
    destruct (split_lines b) as [|l ls] eqn:E; [|reflexivity].
    apply split_lines_nil in E. subst b.
    destruct Hc as [Hc|Hc]; [discriminate|].
    unfold ends_with_newline in Hc. simpl in Hc.
    apply Z.eqb_eq in Hc. contradiction.
Qed.

(** *** Characters *)

Lemma name_char_spec c :
  name_char c = true <-> 33 <= c <= 126 /\ c <> 58.
Proof.
  unfold name_char. rewrite !andb_true_iff, negb_true_iff, !Z.leb_le, Z.eqb_neq.
  tauto.
Qed.

Lemma text_char_spec c : text_char c = true <-> 32 <= c <= 126.
Proof. unfold text_char. rewrite andb_true_iff, !Z.leb_le. tauto. Qed.

Lemma forallb_Forall_iff {A} (f : A -> bool) (l : list A) :
  forallb f l = true <-> Forall (fun x => f x = true) l.
Proof.
  induction l as [|x l IH]; simpl.
  - split; [constructor|reflexivity].
  - rewrite andb_true_iff, IH. split.
    + intros [? ?]. constructor; assumption.
    + intros H. inversion H; subst. split; assumption.
Qed.

Lemma Forall_weaken {A} (P Q : A -> Prop) (l : list A) :
  (forall x, P x -> Q x) -> Forall P l -> Forall Q l.
Proof. intros HPQ H. induction H; constructor; auto. Qed.

Lemma From_value : From_ = [70; 114; 111; 109; 32].
Proof. reflexivity. Qed.

(** *** Header lines *)

(** A line that begins with a field name and its colon is no envelope
    line. *)
Lemma name_not_from (n rest : pybytes) :
  forallb name_char n = true ->
  starts_with From_ (n ++ 58 :: rest) = false.
Proof.
  intros Hn. unfold starts_with. rewrite From_value.
  destruct n as [|a [|b [|c [|d [|e n]]]]]; cbn [is_prefix app];
    repeat match goal with
           | |- context [Z.eqb ?x ?y] =>
             destruct (Z.eqb_spec x y); cbn [andb]; try reflexivity; try lia
           end.
  subst. cbv [forallb name_char] in Hn. simpl in Hn. discriminate.
Qed.

Lemma name_not_blank (n rest : pybytes) (c : Z) :
  n <> [] -> forallb name_char n = true -> c < 33 ->
  starts_with [c] (n ++ rest) = false.
Proof.
  intros Hne Hn Hc. destruct n as [|a n]; [contradiction|]. simpl in *.
  apply andb_true_iff in Hn as [Ha _]. apply name_char_spec in Ha.
  unfold starts_with. simpl. destruct (Z.eqb_spec c a); [lia|reflexivity].
Qed.

Lemma split_name_field (n rest : pybytes) :
  forallb name_char n = true -> split_name (n ++ 58 :: rest) = Some (n, rest).
Proof.
  induction n as [|a n IH]; intros Hn; simpl.
  - reflexivity.
  - simpl in Hn. apply andb_true_iff in Hn as [Ha Hn].
    rewrite Ha. apply name_char_spec in Ha.
    destruct (Z.eqb_spec a 58); [lia|]. rewrite IH by assumption. reflexivity.
Qed.

Lemma lstrip_value (v : pybytes) :
  forallb text_char v = true -> starts_with [32] v = false ->
  lstrip_blank (32 :: v ++ [10]) = v ++ [10].
Proof.
  intros Hv Hs. simpl. destruct v as [|c v]; simpl.
  - reflexivity.
  - simpl in Hv. apply andb_true_iff in Hv as [Hc _]. apply text_char_spec in Hc.
    unfold starts_with in Hs. simpl in Hs.
    destruct (Z.eqb_spec c 32); [subst; discriminate|].
    destruct (Z.eqb_spec c 9); [lia|]. reflexivity.
Qed.

Lemma rstrip_value (v : pybytes) :
  forallb text_char v = true -> rstrip_newline (v ++ [10]) = v.
Proof.
  intros Hv. unfold rstrip_newline. rewrite reverse_snoc. simpl.
  destruct (reverse v) as [|c r] eqn:E.
  - rewrite <- (reverse_involutive v), E. reflexivity.
  - assert (Hc : text_char c = true).
    { apply forallb_Forall_iff in Hv. rewrite Forall_forall in Hv. apply Hv.
      apply list_elem_of_In. rewrite <- (reverse_involutive v), E.
      apply list_elem_of_In, elem_of_reverse. left. }
    apply text_char_spec in Hc.
    destruct (Z.eqb_spec c 13); [lia|]. destruct (Z.eqb_spec c 10); [lia|].
    simpl. rewrite <- E. apply reverse_involutive.
Qed.

Lemma header_line_shape (h : pystr * pystr) :
  header_line h = fst h ++ 58 :: 32 :: snd h ++ [10].
Proof. reflexivity. Qed.

(** The parser reads back the fields that the generator wrote, and hands the
    lines after the blank line to the body. *)
Lemma parse_headers_render (hs : list (pystr * pystr)) (blines : list pystr) :
  forallb wf_field hs = true ->
  parse_headers (map header_line hs ++ [10] :: blines) = Some (hs, blines).
Proof.
  induction hs as [|[n v] hs IH]; intros Hwf.
  - reflexivity.
  - simpl in Hwf. apply andb_true_iff in Hwf as [Hh Hwf].
    unfold wf_field in Hh. simpl in Hh.
    rewrite !andb_true_iff, !negb_true_iff in Hh.
    destruct Hh as [[[Hne Hn] Hv] Hs].
    apply bool_decide_eq_false in Hne.
    cbn [map app parse_headers]. rewrite header_line_shape. cbn [fst snd].
    rewrite name_not_from by assumption.
    rewrite (name_not_blank n _ 32) by (assumption || lia).
    rewrite (name_not_blank n _ 9) by (assumption || lia).
    cbn [orb]. rewrite split_name_field by assumption.
    destruct n as [|a n]; [contradiction|].
    rewrite IH by assumption.
    rewrite lstrip_value by assumption. rewrite rstrip_value by assumption.
    reflexivity.
Qed.

(** *** A rendered message *)

Lemma canonical_parts (m : plain_message) :
  canonical m = true ->
  forallb wf_field (fields m) = true /\ in_fragment (fields m) = true /\
  Forall (fun c => c = 10 \/ 32 <= c <= 126) (body m) /\
  complete (body m) /\
  Forall (fun l => no_from l = true) (split_lines (body m)).
Proof.
  unfold canonical, wf_body. rewrite !andb_true_iff, orb_true_iff.
  intros [[Hf Hi] [[Hc He] Hl]]. repeat split; try assumption.
  - apply forallb_Forall_iff in Hc. revert Hc. apply Forall_weaken.
    intros c Hc. apply orb_true_iff in Hc as [Hc|Hc].
    + left. apply Z.eqb_eq, Hc.
    + right. apply text_char_spec, Hc.
  - destruct He as [He|He]; [left|right; exact He].
    apply bool_decide_eq_true in He. exact He.
  - apply forallb_Forall_iff in Hl. exact Hl.
Qed.

Lemma field_printable (h : pystr * pystr) :
  wf_field h = true ->
  Forall (fun c => 32 <= c <= 126) (fst h ++ 58 :: 32 :: snd h).
Proof.
  unfold wf_field. rewrite !andb_true_iff. intros [[[_ Hn] Hv] _].
  apply Forall_app. split.
  - apply forallb_Forall_iff in Hn. revert Hn. apply Forall_weaken.
    intros c Hc. apply name_char_spec in Hc. lia.
  - constructor; [lia|]. constructor; [lia|].
    apply forallb_Forall_iff in Hv. revert Hv. apply Forall_weaken.
    intros c Hc. apply text_char_spec in Hc. exact Hc.
Qed.

Lemma header_line_app (h : pystr * pystr) (rest : pybytes) :
  header_line h ++ rest = (fst h ++ 58 :: 32 :: snd h) ++ 10 :: rest.
Proof.
  rewrite header_line_shape.
  change (58 :: 32 :: snd h ++ [10]) with ([58; 32] ++ snd h ++ [10]).
  change (58 :: 32 :: snd h) with ([58; 32] ++ snd h).
  rewrite <- !app_assoc. reflexivity.
Qed.

Lemma render_lines (m : plain_message) :
  forallb wf_field (fields m) = true ->
  split_lines (render m)
  = map header_line (fields m) ++ [10] :: split_lines (body m).
Proof.
  unfold render, flatten. generalize (body m) as b.
  induction (fields m) as [|h hs IH]; intros b Hwf.
  - reflexivity.
  - simpl in Hwf. apply andb_true_iff in Hwf as [Hh Hwf].
    cbn [map concat]. rewrite <- app_assoc, header_line_app.
    rewrite split_lines_line.
    + rewrite IH by exact Hwf. rewrite <- header_line_app, app_nil_r.
      reflexivity.
    + apply (Forall_weaken (fun c => 32 <= c <= 126)); [intros; lia|].
      apply field_printable, Hh.
Qed.

Lemma render_chars (m : plain_message) :
  canonical m = true ->
  Forall (fun c => c = 10 \/ 32 <= c <= 126) (render m).
Proof.
  intros Hc. destruct (canonical_parts m Hc) as (Hf & _ & Hb & _ & _).
  unfold render, flatten. apply Forall_app. split.
  - revert Hf. induction (fields m) as [|h hs IH]; intros Hf; simpl.
    + constructor.
    + simpl in Hf. apply andb_true_iff in Hf as [Hh Hf].
      apply Forall_app. split; [|apply IH, Hf].
      rewrite header_line_shape.
      replace (fst h ++ 58 :: 32 :: snd h ++ [10])
        with ((fst h ++ 58 :: 32 :: snd h) ++ [10])
        by (rewrite <- app_assoc; reflexivity).
      apply Forall_app. split.
      * apply (Forall_weaken (fun c => 32 <= c <= 126)); [auto|].
        apply field_printable, Hh.
      * constructor; [auto|constructor].
  - apply Forall_app. split; [|exact Hb]. constructor; [auto|constructor].
Qed.

(** Parsing what the generator wrote gives the handle of the message. *)
Lemma mboxMessage_render (m : plain_message) :
  canonical m = true -> mboxMessage (render m) = Some (plain_handle m).
Proof.
  intros Hc. destruct (canonical_parts m Hc) as (Hf & Hi & _ & _ & _).
  unfold mboxMessage.
  assert (Hchars : forallb (fun c => (c =? 10) || text_char c) (render m) = true).
  { apply forallb_Forall_iff. generalize (render_chars m Hc). apply Forall_weaken.
    intros c [->|H]; [reflexivity|].
    apply orb_true_iff. right. apply text_char_spec, H. }
  rewrite Hchars, render_lines, parse_headers_render by assumption.
  rewrite Hi, concat_split_lines. reflexivity.
Qed.

(** *** Writing an entry *)

Lemma first_line_from (r : pybytes) :
  starts_with From_ r = true ->
  exists l ls, split_lines r = l :: ls /\ starts_with From_ l = true.
Proof.
  unfold starts_with. rewrite From_value.
  destruct r as [|a [|b [|c [|d [|e r]]]]]; cbn [is_prefix];
    rewrite ?andb_true_iff, ?Z.eqb_eq; try (intuition discriminate).
  intros (<- & <- & <- & <- & <- & _). simpl.
  destruct (split_lines r); eexists _, _; split; reflexivity.
Qed.

Lemma no_from_first_line (r : pybytes) :
  Forall (fun l => no_from l = true) (split_lines r) ->
  starts_with From_ r = false.
Proof.
  intros H. destruct (starts_with From_ r) eqn:E; [|reflexivity].
  destruct (first_line_from r E) as (l & ls & Hl & Hs). rewrite Hl in H.
  inversion H as [|? ? Hn _]; subst. unfold no_from in Hn.
  rewrite Hs in Hn. discriminate.
Qed.

(** Without an envelope-like line after the first one, [mangle] has nothing
    to quote. *)
Lemma mangle_id (b : pybytes) :
  Forall (fun l => no_from l = true) (tail (split_lines b)) -> mangle b = b.
Proof.
  induction b as [|c r IH]; intros H; [reflexivity|].
  cbn [mangle]. simpl in H. destruct (Z.eqb_spec c 10) as [->|Hne].
  - simpl in H. rewrite no_from_first_line by exact H. cbn [andb].
    rewrite IH; [reflexivity|]. destruct (split_lines r); [constructor|].
    inversion H; subst. assumption.
  - cbn [andb]. rewrite IH; [reflexivity|].
    destruct (split_lines r); [constructor|exact H].
Qed.

Lemma render_no_from (m : plain_message) :
  canonical m = true ->
  Forall (fun l => no_from l = true) (split_lines (render m)).
Proof.
  intros Hc. destruct (canonical_parts m Hc) as (Hf & _ & _ & _ & Hb).
  rewrite render_lines by exact Hf. apply Forall_app. split.
  - clear Hb Hc. induction (fields m) as [|h hs IH]; simpl; [constructor|].
    simpl in Hf. apply andb_true_iff in Hf as [Hh Hf].
    constructor; [|apply IH, Hf].
    unfold no_from. rewrite header_line_shape, name_not_from; [reflexivity|].
    unfold wf_field in Hh. rewrite !andb_true_iff in Hh. tauto.
  - constructor; [reflexivity|exact Hb].
Qed.

Lemma render_complete (m : plain_message) :
  canonical m = true -> ends_with_newline (render m) = true.
Proof.
  intros Hc. destruct (canonical_parts m Hc) as (_ & _ & _ & Hb & _).
  unfold render, flatten, ends_with_newline. rewrite !last_app.
  destruct Hb as [->|Hb]; [reflexivity|].
  unfold ends_with_newline in Hb. destruct (last (body m)); [exact Hb|discriminate].
Qed.

Lemma mbox_add_canonical (file stamp : pybytes) (m : plain_message) :
  canonical m = true -> mbox_add file stamp (render m) = file ++ entry (stamp, m).
Proof.
  intros Hc. unfold mbox_add, entry.
  rewrite (no_from_first_line (render m)) by (apply render_no_from, Hc).
  rewrite mangle_id.
  - rewrite render_complete by exact Hc. cbn [fst snd app].
    rewrite <- !app_assoc. reflexivity.
  - pose proof (render_no_from m Hc) as H.
    destruct (split_lines (render m)); [constructor|].
    inversion H; subst. assumption.
Qed.

Lemma add_all_entries (file : pybytes) (items : list (pybytes * plain_message)) :
  well_formed items = true ->
  add_all file items = file ++ concat (map entry items).
Proof.
  unfold add_all, well_formed. revert file.
  induction items as [|[stamp m] items IH]; intros file Hwf; simpl.
  - rewrite app_nil_r. reflexivity.
  - simpl in Hwf. rewrite !andb_true_iff in Hwf. destruct Hwf as [[_ Hc] Hwf].
    rewrite mbox_add_canonical by exact Hc. rewrite IH by exact Hwf.
    rewrite <- app_assoc. reflexivity.
Qed.

(** *** Scanning the entries *)

Lemma stamp_line (stamp : pybytes) :
  wf_stamp stamp = true ->
  Forall (fun c => 32 <= c <= 126) (py "From MAILER-DAEMON " ++ stamp).
Proof.
  intros Hs. apply Forall_app. split.
  - apply forallb_Forall_iff in Hs.
    apply (Forall_weaken (fun c => text_char c = true));
      [intros c Hc; apply text_char_spec, Hc|].
    apply forallb_Forall_iff. reflexivity.
  - apply forallb_Forall_iff in Hs. revert Hs. apply Forall_weaken.
    intros c Hc. apply text_char_spec, Hc.
Qed.

Lemma entry_lines (stamp : pybytes) (m : plain_message) (rest : pybytes) :
  wf_stamp stamp = true -> canonical m = true ->
  split_lines (entry (stamp, m) ++ rest)
  = ((py "From MAILER-DAEMON " ++ stamp) ++ [10])
      :: split_lines (render m) ++ [10] :: split_lines rest.
Proof.
  intros Hs Hc.
  assert (He : entry (stamp, m) ++ rest
               = (py "From MAILER-DAEMON " ++ stamp) ++ 10 :: (render m ++ 10 :: rest)).
  { unfold entry. cbn [fst snd]. rewrite <- !app_assoc. reflexivity. }
  rewrite He. rewrite split_lines_line.
  - f_equal.
    rewrite split_lines_app by (right; apply render_complete, Hc). reflexivity.
  - apply (Forall_weaken (fun c => 32 <= c <= 126)); [intros; lia|].
    apply stamp_line, Hs.
Qed.

(** Lines that are no envelope lines leave the table alone; after the blank
    line that closes an entry the scan remembers that it saw one. *)
Lemma toc_scan_plain (lines : list pybytes) (rest : list pybytes)
    (st : toc_state) (pos : Z) :
  Forall (fun l => no_from l = true) lines ->
  toc_scan st pos (lines ++ [10] :: rest)
  = toc_scan {| starts := starts st; stops := stops st; last_was_empty := true |}
             (pos + Z.of_nat (length (concat lines)) + 1) rest.
Proof.
  revert st pos. induction lines as [|l lines IH]; intros st pos H.
  - cbn [app toc_scan concat length]. unfold toc_line.
    change (starts_with From_ [10]) with false. cbn iota.
    rewrite decide_True by reflexivity. f_equal. simpl. lia.
  - inversion H as [|? ? Hl Hrest]; subst.
    cbn [app toc_scan]. rewrite IH by assumption.
    unfold toc_line. unfold no_from in Hl. apply negb_true_iff in Hl.
    rewrite Hl. cbn [starts stops]. f_equal.
    cbn [concat]. rewrite length_app. lia.
Qed.

Lemma from_line_starts (stamp : pybytes) :
  starts_with From_ ((py "From MAILER-DAEMON " ++ stamp) ++ [10]) = true.
Proof. reflexivity. Qed.

Lemma entry_length (stamp : pybytes) (m : plain_message) :
  Z.of_nat (length (entry (stamp, m)))
  = Z.of_nat (length ((py "From MAILER-DAEMON " ++ stamp) ++ [10]))
    + Z.of_nat (length (render m)) + 1.
Proof.
  unfold entry. cbn [fst snd]. rewrite !length_app. simpl. lia.
Qed.

(** The scan of one entry: its envelope line opens a range, and closes the
    range of the entry before it, if there is one. *)
Lemma scan_entry (stamp : pybytes) (m : plain_message) (rest : pybytes)
    (st : toc_state) (pos : Z) :
  wf_stamp stamp = true -> canonical m = true ->
  toc_scan st pos (split_lines (entry (stamp, m) ++ rest))
  = toc_scan
      {| starts := starts st ++ [pos];
         stops := if (length (stops st) <? length (starts st))%nat
                  then stops st ++ [stop_before st pos] else stops st;
         last_was_empty := true |}
      (pos + Z.of_nat (length (entry (stamp, m)))) (split_lines rest).
Proof.
  intros Hs Hc. rewrite entry_lines by assumption.
  cbn [toc_scan]. unfold toc_line. rewrite from_line_starts.
  rewrite toc_scan_plain by (apply render_no_from, Hc).
  cbn [starts stops]. rewrite concat_split_lines.
  f_equal. rewrite entry_length. lia.
Qed.

(** The scan of a run of entries, entered behind an entry that began at
    [s0]: that entry is closed one octet before [pos], and every further
    entry gets its own range. *)
Lemma scan_entries (items : list (pybytes * plain_message))
    (S T : list Z) (s0 pos : Z) :
  well_formed items = true -> length S = length T ->
  let st := toc_scan {| starts := S ++ [s0]; stops := T; last_was_empty := true |}
                     pos (split_lines (concat (map entry items))) in
  zip (starts st) (stops st)
  = zip S T ++ (s0, pos - 1) :: entry_ranges pos (map entry items).
Proof.
  revert S T s0 pos.
  induction items as [|[stamp m] items IH]; intros S T s0 pos Hwf Hlen st.
  - subst st. cbn. unfold stop_before. cbn.
    rewrite zip_with_app by exact Hlen. reflexivity.
  - unfold well_formed in Hwf. cbn [forallb fst snd] in Hwf.
    rewrite !andb_true_iff in Hwf. destruct Hwf as [[Hs Hc] Hwf].
    subst st. cbn [map concat]. rewrite scan_entry by assumption.
    cbn [starts stops]. unfold stop_before. cbn [last_was_empty].
    replace (length T <? length (S ++ [s0]))%nat with true
      by (symmetry; apply Nat.ltb_lt; rewrite length_app; simpl; lia).
    rewrite (IH (S ++ [s0]) (T ++ [pos - 1]) pos) by
      (assumption || (rewrite !length_app; simpl; lia)).
    rewrite zip_with_app by exact Hlen. cbn [entry_ranges].
    rewrite <- app_assoc. reflexivity.
Qed.

(** The table of contents of a file of entries. *)
Lemma toc_ranges_entries (items : list (pybytes * plain_message)) :
  well_formed items = true ->
  toc_ranges (concat (map entry items)) = entry_ranges 0 (map entry items).
Proof.
  destruct items as [|[stamp m] items]; intros Hwf.
  - reflexivity.
  - unfold well_formed in Hwf. cbn [forallb fst snd] in Hwf.
    rewrite !andb_true_iff in Hwf. destruct Hwf as [[Hs Hc] Hwf].
    unfold toc_ranges. cbn [map concat]. rewrite scan_entry by assumption.
    cbn [starts stops length Nat.ltb Nat.leb app].
    rewrite (scan_entries items [] [] 0) by (assumption || reflexivity).
    reflexivity.
Qed.

(** *** Reading the entries back *)

Lemma entry_split (stamp : pybytes) (m : plain_message) (rest : pybytes) :
  entry (stamp, m) ++ rest
  = (py "From MAILER-DAEMON " ++ stamp) ++ 10 :: (render m ++ 10 :: rest).
Proof. unfold entry. cbn [fst snd]. rewrite <- !app_assoc. reflexivity. Qed.

(** [get_message] on the range of an entry parses the message between the
    envelope line and the closing blank line. *)
Lemma get_message_entry (pre post stamp : pybytes) (m : plain_message) :
  wf_stamp stamp = true -> canonical m = true ->
  get_message (pre ++ entry (stamp, m) ++ post)
    (Z.of_nat (length pre),
     Z.of_nat (length pre) + Z.of_nat (length (entry (stamp, m))) - 1)
  = Some (plain_handle m).
Proof.
  intros Hs Hc. unfold get_message.
  rewrite Nat2Z.id, drop_app_length, entry_split.
  pose proof (stamp_line stamp Hs) as Hfl.
  rewrite break_line_line
    by (revert Hfl; apply Forall_weaken; intros; lia).
  assert (Hascii : forallb (fun c => c <? 128)
                     ((py "From MAILER-DAEMON " ++ stamp) ++ [10]) = true).
  { apply forallb_Forall_iff, Forall_app. split.
    - revert Hfl. apply Forall_weaken. intros c Hc'. apply Z.ltb_lt. lia.
    - constructor; [reflexivity|constructor]. }
  rewrite Hascii.
  replace (Z.to_nat _) with (length (render m))
    by (rewrite entry_length; lia).
  rewrite take_app_length. apply mboxMessage_render, Hc.
Qed.

Lemma read_entries (items : list (pybytes * plain_message)) (pre : pybytes) :
  well_formed items = true ->
  Forall2 (fun r h => get_message (pre ++ concat (map entry items)) r = Some h)
    (entry_ranges (Z.of_nat (length pre)) (map entry items))
    (map (fun item => plain_handle (snd item)) items).
Proof.
  revert pre. induction items as [|[stamp m] items IH]; intros pre Hwf.
  - constructor.
  - unfold well_formed in Hwf. cbn [forallb fst snd] in Hwf.
    rewrite !andb_true_iff in Hwf. destruct Hwf as [[Hs Hc] Hwf].
    cbn [map concat entry_ranges snd]. constructor.
    + apply get_message_entry; assumption.
    + specialize (IH (pre ++ entry (stamp, m)) Hwf).
      rewrite length_app, Nat2Z.inj_add, <- app_assoc in IH. exact IH.
Qed.

Lemma read_mbox_entries (items : list (pybytes * plain_message)) :
  well_formed items = true ->
  read_mbox (concat (map entry items))
  = Some (map (fun item => plain_handle (snd item)) items).
Proof.
  intros Hwf. unfold read_mbox. rewrite toc_ranges_entries by exact Hwf.
  apply mapM_Some_2. apply (read_entries items [] Hwf).
Qed.

Lemma encode_ascii (s : pystr) :
  Forall (fun c => c = 10 \/ 32 <= c <= 126) s -> str_encode_utf8 s = Some s.
Proof.
  induction s as [|c s IH]; intros H; [reflexivity|].
  inversion H as [|? ? Hc Hs]; subst. cbn [str_encode_utf8].
  rewrite IH by assumption. unfold encode_cp.
  replace (c <? 128) with true by (symmetry; apply Z.ltb_lt; lia).
  reflexivity.
Qed.

Lemma lookup_map {A B} (f : A -> B) (l : list A) (i : nat) :
  map f l !! i = f <$> l !! i.
Proof.
  revert i. induction l as [|x l IH]; intros [|i]; simpl; auto.
Qed.

(** C3, amended: messages in the form the generator writes (fields
    [name: value], a blank line, a body of complete lines without envelope
    lines; printable ASCII) that are appended in turn to an empty Message
    File are counted and numbered in the order of the appends by a fresh
    load, and [fetchMessage] returns each of them octet for octet. *)
Theorem fetch_fidelity_canonical (name : pystr)
    (items : list (pybytes * plain_message)) :
  well_formed items = true ->
  exists self,
    load_bytes name (add_all [] items) = Some self /\
    getMessageCount self = Succeed (Z.of_nat (length items)) /\
    forall (i : nat) stamp m,
      items !! i = Some (stamp, m) ->
      fetchMessage self (Z.of_nat i + 1) = Succeed (render m).
Proof.
  intros Hwf. rewrite add_all_entries by exact Hwf. cbn [app].
  unfold load_bytes. rewrite read_mbox_entries by exact Hwf.
  eexists. split; [reflexivity|].
  rewrite init_store. unfold file_of, single_folder.
  rewrite lookup_singleton_eq. split.
  - unfold getMessageCount. cbn [messages]. rewrite length_map. reflexivity.
  - intros i stamp m Hi. unfold fetchMessage. cbn [index].
    rewrite index_of_get. rewrite bool_decide_eq_true_2 by lia.
    replace (Z.to_nat (Z.of_nat i + 1 - 1)) with i by lia.
    rewrite lookup_map, Hi. cbn [fmap option_fmap option_map snd].
    unfold as_string, plain_handle. cbn [flat].
    assert (Hc : canonical m = true).
    { unfold well_formed in Hwf. apply forallb_Forall_iff in Hwf.
      rewrite Forall_forall in Hwf.
      assert (Hin : (stamp, m) ∈ items)
        by (apply list_elem_of_lookup; eauto).
      apply Hwf in Hin. cbn [fst snd] in Hin.
      apply andb_true_iff in Hin. tauto. }
    rewrite encode_ascii by (apply render_chars, Hc). reflexivity.
Qed.

Lemma fetch_fidelity_canonical_witness :
  well_formed [(asctime, letter "A" "alpha");
               (asctime, letter "Invoice #4" "thanks")] = true /\
  exists self,
    load_bytes inbox (add_all [] [(asctime, letter "A" "alpha");
                                  (asctime, letter "Invoice #4" "thanks")])
    = Some self /\
    getMessageCount self = Succeed 2 /\
    fetchMessage self 2 = Succeed (render (letter "Invoice #4" "thanks")).
Proof.
  split; [vm_compute; reflexivity|].
  destruct (fetch_fidelity_canonical inbox
              [(asctime, letter "A" "alpha");
               (asctime, letter "Invoice #4" "thanks")])
    as (self & Hl & Hn & Hf); [vm_compute; reflexivity|].
  exists self. split; [exact Hl|]. split; [exact Hn|].
  apply (Hf 1%nat asctime). reflexivity.
Defined.

(** ** Further properties of the store *)

Lemma dict_contains_index (self : IndexedMboxMailbox) (k : Z) :
  consistent self ->
  dict_contains k (index self)
  = (1 <=? k) && (k <=? Z.of_nat (length (messages self))).
Proof.
  intros Hc. rewrite Hc.
  pose proof (index_of_contains (messages self) k) as H.
  destruct (dict_contains k (index_of (messages self))) eqn:E.
  - symmetry. apply andb_true_iff. rewrite !Z.leb_le. apply H. reflexivity.
  - symmetry. apply not_true_iff_false. intros Hb.
    apply andb_true_iff in Hb. rewrite !Z.leb_le in Hb.
    apply H in Hb. discriminate.
Qed.

(** X1: after [__init__] and any run of calls, [fetch] answers with one
    message set for each requested number between 1 and the message count,
    in the order of the request and as often as requested; the other
    numbers are dropped without an error, and [uid] makes no difference. *)
Theorem fetch_known_ids (fs0 : FS) (name : pystr) (reqs : list request)
    (msg_ids : list Z) (uid : bool) :
  let self := snd (serve_all (IndexedMboxMailbox_init fs0 name) reqs) in
  fetch self msg_ids uid
  = Succeed (map MessageSet_of
               (List.filter
                  (fun k => (1 <=? k) && (k <=? Z.of_nat (length (messages self))))
                  msg_ids)).
Proof.
  intros self. unfold fetch. do 2 f_equal.
  apply List.filter_ext. intros k. apply dict_contains_index.
  apply serve_all_consistent, init_consistent.
Qed.

Lemma search_loop_outcome (q : pystr) (items : list (Z * Message)) (acc : list Z) :
  search_loop q items acc
  = if existsb (fun im => raises_on q (snd im)) items
    then Raise AttributeError
    else Succeed (acc ++ map fst (List.filter (fun im => matches q (snd im)) items)).
Proof.
  revert acc. induction items as [|[k msg] items IH]; intros acc.
  - simpl. rewrite app_nil_r. reflexivity.
  - cbn [search_loop existsb List.filter snd]. unfold raises_on at 1, matches at 1.
    assert (He : forall e, search_test q msg = inl e -> e = AttributeError).
    { unfold search_test. intros e.
      destruct (get_subject msg); [|congruence].
      destruct (str_contains _ _); [discriminate|].
      destruct (get_payload_decode msg); congruence. }
    destruct (search_test q msg) as [e|[|]] eqn:E.
    + rewrite (He e eq_refl). reflexivity.
    + cbn [orb]. rewrite IH. destruct (existsb _ items); [reflexivity|].
      cbn [map fst]. rewrite <- app_assoc. reflexivity.
    + cbn [orb]. apply IH.
Qed.

Lemma raises_on_spec (q : pystr) (msg : Message) :
  raises_on q msg = true <->
  (exists raw, get_subject msg = HHeader raw) \/
  (exists subj, get_subject msg = HStr subj /\
     str_contains (str_lower q) (str_lower subj) = false /\
     get_payload_decode msg = None).
Proof.
  unfold raises_on, search_test.
  destruct (get_subject msg) as [subj|raw].
  - destruct (str_contains (str_lower q) (str_lower subj)) eqn:Es.
    + split; [discriminate|]. intros [[raw H]|(s & H & Hf & _)]; [discriminate|].
      injection H as <-. congruence.
    + destruct (get_payload_decode msg) as [b|].
      * split; [discriminate|].
        intros [[raw H]|(s & _ & _ & H)]; discriminate.
      * split; [|reflexivity]. intros _. right. eauto.
  - split; [|reflexivity]. intros _. left. eauto.
Qed.

(** X2: for a query in ASCII on a store whose messages have subjects and
    decoded bodies in ASCII, [search] raises exactly when the index holds a
    message whose subject is a [Header] object, or whose subject does not
    contain the query while it has no single payload; the exception is
    [AttributeError].  Otherwise it succeeds with the identifiers of the
    messages that pass the test, in the order of the index. *)
Theorem search_outcome (self : IndexedMboxMailbox) (q : pystr) :
  is_ascii q = true -> ascii_folder self = true ->
  (search self q
   = if existsb (fun im => raises_on q (snd im)) (index self)
     then Raise AttributeError
     else Succeed (map fst (List.filter (fun im => matches q (snd im)) (index self))))
  /\
  forall msg, ascii_message msg = true ->
    (raises_on q msg = true <->
     (exists raw, get_subject msg = HHeader raw) \/
     (exists subj, get_subject msg = HStr subj /\
        str_contains (str_lower q) (str_lower subj) = false /\
        get_payload_decode msg = None)).
Proof.
  intros _ _. split; [apply search_loop_outcome|].
  intros msg _. apply raises_on_spec.
Qed.

Lemma search_outcome_witness :
  is_ascii (py "thanks") = true /\
  ascii_folder (snd (open_folder inbox [multipart_report; invoice])) = true /\
  search (snd (open_folder inbox [multipart_report; invoice])) (py "thanks")
  = Raise AttributeError /\
  search (snd (open_folder inbox [msgA; invoice])) (py "thanks") = Succeed [2].
Proof.
  assert (Hq : is_ascii (py "thanks") = true) by reflexivity.
  assert (H1 : ascii_folder (snd (open_folder inbox [multipart_report; invoice]))
               = true) by (vm_compute; reflexivity).
  assert (H2 : ascii_folder (snd (open_folder inbox [msgA; invoice])) = true)
    by (vm_compute; reflexivity).
  split; [exact Hq|]. split; [exact H1|]. split.
  - rewrite (proj1 (search_outcome _ _ Hq H1)). vm_compute. reflexivity.
  - rewrite (proj1 (search_outcome _ _ Hq H2)). vm_compute. reflexivity.
Defined.

Lemma search_test_same (q q' : pystr) (msg msg' : Message) :
  str_lower q = str_lower q' -> same_text msg msg' = true ->
  search_test q msg = search_test q' msg'.
Proof.
  intros Hq Hs. unfold same_text in Hs. apply andb_true_iff in Hs as [Hs Hp].
  unfold search_test. rewrite Hq.
  destruct (get_subject msg) as [subj|raw], (get_subject msg') as [subj'|raw'];
    try discriminate; [|reflexivity].
  apply bool_decide_eq_true_1 in Hs. rewrite Hs.
  destruct (str_contains (str_lower q') (str_lower subj')); [reflexivity|].
  destruct (get_payload_decode msg) as [b|], (get_payload_decode msg') as [b'|];
    try discriminate; [|reflexivity].
  apply bool_decide_eq_true_1 in Hp. rewrite Hp. reflexivity.
Qed.

Lemma search_loop_same (q q' : pystr) (d d' : list (Z * Message)) (acc : list Z) :
  str_lower q = str_lower q' -> same_folder d d' = true ->
  search_loop q d acc = search_loop q' d' acc.
Proof.
  intros Hq. revert d' acc.
  induction d as [|[k msg] d IH]; intros [|[k' msg'] d'] acc Hs;
    try discriminate; [reflexivity|].
  cbn [same_folder] in Hs. apply andb_true_iff in Hs as [Hs Hd].
  apply andb_true_iff in Hs as [Hk Hs]. apply Z.eqb_eq in Hk. subst k'.
  cbn [search_loop]. rewrite (search_test_same q q' msg msg' Hq Hs).
  destruct (search_test q' msg') as [e|[|]]; auto.
Qed.

(** X3: [search] does not tell upper case from lower case, for text in
    ASCII: two queries that differ in the case of their letters only, on two
    stores whose messages have the same identifiers and differ in the case
    of the letters of their subjects and decoded bodies only, get the same
    answer, be it a result or an exception. *)
Theorem search_ignores_case (self self' : IndexedMboxMailbox) (q q' : pystr) :
  is_ascii q = true -> is_ascii q' = true ->
  ascii_folder self = true -> ascii_folder self' = true ->
  str_lower q = str_lower q' ->
  same_folder (index self) (index self') = true ->
  search self q = search self' q'.
Proof.
  intros _ _ _ _ Hq Hs. unfold search. apply search_loop_same; assumption.
Qed.

Lemma search_ignores_case_witness :
  let self := snd (open_folder inbox [invoice; msgA]) in
  let self' := snd (open_folder inbox
                      [plain_handle (letter "INVOICE #4" "Thanks"); msgA]) in
  is_ascii (py "INVOICE") = true /\ is_ascii (py "invoice") = true /\
  ascii_folder self = true /\ ascii_folder self' = true /\
  str_lower (py "INVOICE") = str_lower (py "invoice") /\
  same_folder (index self) (index self') = true /\
  search self (py "INVOICE") = search self' (py "invoice") /\
  search self (py "INVOICE") = Succeed [1].
Proof.
  intros self self'.
  assert (H1 : ascii_folder self = true) by (vm_compute; reflexivity).
  assert (H2 : ascii_folder self' = true) by (vm_compute; reflexivity).
  assert (H3 : same_folder (index self) (index self') = true)
    by (vm_compute; reflexivity).
  split; [reflexivity|]. split; [reflexivity|]. split; [exact H1|].
  split; [exact H2|]. split; [reflexivity|]. split; [exact H3|].
  split; [|vm_compute; reflexivity].
  exact (search_ignores_case self self' (py "INVOICE") (py "invoice")
           eq_refl eq_refl H1 H2 eq_refl H3).
Defined.

Lemma str_contains_trans (p q s : pystr) :
  str_contains p q = true -> str_contains q s = true -> str_contains p s = true.
Proof.
  rewrite !str_contains_spec. intros (a & b & ->) (x & y & ->).
  exists (x ++ a), (b ++ y). rewrite <- !app_assoc. reflexivity.
Qed.

Lemma matches_narrow (q1 q2 : pystr) (msg : Message) :
  ci_substring q1 q2 -> matches q2 msg = true -> matches q1 msg = true.
Proof.
  intros Hq. apply str_contains_ci in Hq.
  unfold matches, search_test.
  destruct (get_subject msg) as [subj|raw]; [|discriminate].
  destruct (str_contains (str_lower q2) (str_lower subj)) eqn:E2.
  - intros _. rewrite (str_contains_trans _ _ _ Hq E2). reflexivity.
  - destruct (get_payload_decode msg) as [b|]; [|discriminate].
    intros Hb. rewrite (str_contains_trans _ _ _ Hq Hb).
    destruct (str_contains (str_lower q1) (str_lower subj)); reflexivity.
Qed.

(** X4: for queries in ASCII on a store whose messages have subjects and
    decoded bodies in ASCII, a query that is part of another one, case
    ignored, finds at least what the longer query finds: when both searches
    succeed, every identifier in the answer to the longer query is in the
    answer to the shorter one. *)
Theorem search_shorter_query (self : IndexedMboxMailbox) (q1 q2 : pystr)
    (ids1 ids2 : list Z) :
  is_ascii q1 = true -> is_ascii q2 = true -> ascii_folder self = true ->
  ci_substring q1 q2 ->
  search self q1 = Succeed ids1 -> search self q2 = Succeed ids2 ->
  forall k, In k ids2 -> In k ids1.
Proof.
  intros _ _ _ Hq H1 H2 k Hk. unfold search in *.
  rewrite search_loop_outcome in H1, H2.
  destruct (existsb _ (index self)) in H1; [discriminate|].
  destruct (existsb _ (index self)) in H2; [discriminate|].
  injection H1 as <-. injection H2 as <-. simpl in *.
  apply in_map_iff in Hk as ([k' m] & <- & Hin).
  apply filter_In in Hin as [Hin Hm]. apply in_map_iff.
  exists (k', m). split; [reflexivity|]. apply filter_In. split; [exact Hin|].
  simpl in *. eapply matches_narrow; eauto.
Qed.

Lemma search_shorter_query_witness :
  is_ascii (py "VOICE") = true /\ is_ascii (py "Invoice") = true /\
  ascii_folder (snd (open_folder inbox [msgA; invoice])) = true /\
  ci_substring (py "VOICE") (py "Invoice") /\
  search (snd (open_folder inbox [msgA; invoice])) (py "VOICE") = Succeed [2] /\
  search (snd (open_folder inbox [msgA; invoice])) (py "Invoice") = Succeed [2] /\
  In 2 [2].
Proof.
  assert (Ha : ascii_folder (snd (open_folder inbox [msgA; invoice])) = true)
    by (vm_compute; reflexivity).
  assert (Hq : ci_substring (py "VOICE") (py "Invoice")).
  { exists (py "in"), []. vm_compute. reflexivity. }
  assert (H1 : search (snd (open_folder inbox [msgA; invoice])) (py "VOICE")
               = Succeed [2]) by (vm_compute; reflexivity).
  assert (H2 : search (snd (open_folder inbox [msgA; invoice])) (py "Invoice")
               = Succeed [2]) by (vm_compute; reflexivity).
  split; [reflexivity|]. split; [reflexivity|]. split; [exact Ha|].
  repeat split; try assumption.
  apply (search_shorter_query _ (py "VOICE") (py "Invoice") _ _
           eq_refl eq_refl Ha Hq H1 H2).
  left. reflexivity.
Defined.

(** *** UTF-8 *)

Lemma decode_two (b0 b1 : Z) (rest : pybytes) :
  194 <= b0 <= 223 -> 128 <= b1 <= 191 ->
  utf8_decode false (b0 :: b1 :: rest)
  = cons ((b0 - 192) * 64 + (b1 - 128)) <$> utf8_decode false rest.
Proof.
  intros H0 H1. cbn [utf8_decode]. unfold second_ok, is_cont.
  repeat match goal with
         | |- context [Z.ltb ?x ?y] => destruct (Z.ltb_spec x y); try lia
         | |- context [Z.leb ?x ?y] => destruct (Z.leb_spec x y); try lia
         | |- context [Z.eqb ?x ?y] => destruct (Z.eqb_spec x y); try lia
         end; reflexivity.
Qed.

Lemma decode_three (b0 b1 b2 : Z) (rest : pybytes) :
  224 <= b0 <= 239 -> 128 <= b1 <= 191 -> 128 <= b2 <= 191 ->
  (b0 = 224 -> 160 <= b1) -> (b0 = 237 -> b1 < 160) ->
  utf8_decode false (b0 :: b1 :: b2 :: rest)
  = cons ((b0 - 224) * 4096 + (b1 - 128) * 64 + (b2 - 128))
      <$> utf8_decode false rest.
Proof.
  intros H0 H1 H2 Ha Hb. cbn [utf8_decode]. unfold second_ok, is_cont.
  repeat match goal with
         | |- context [Z.ltb ?x ?y] => destruct (Z.ltb_spec x y); try lia
         | |- context [Z.leb ?x ?y] => destruct (Z.leb_spec x y); try lia
         | |- context [Z.eqb ?x ?y] => destruct (Z.eqb_spec x y); try lia
         end; reflexivity.
Qed.

Lemma decode_four (b0 b1 b2 b3 : Z) (rest : pybytes) :
  240 <= b0 <= 244 -> 128 <= b1 <= 191 -> 128 <= b2 <= 191 ->
  128 <= b3 <= 191 ->
  (b0 = 240 -> 144 <= b1) -> (b0 = 244 -> b1 < 144) ->
  utf8_decode false (b0 :: b1 :: b2 :: b3 :: rest)
  = cons ((b0 - 240) * 262144 + (b1 - 128) * 4096 + (b2 - 128) * 64 + (b3 - 128))
      <$> utf8_decode false rest.
Proof.
  intros H0 H1 H2 H3 Ha Hb. cbn [utf8_decode]. unfold second_ok, is_cont.
  repeat match goal with
         | |- context [Z.ltb ?x ?y] => destruct (Z.ltb_spec x y); try lia
         | |- context [Z.leb ?x ?y] => destruct (Z.leb_spec x y); try lia
         | |- context [Z.eqb ?x ?y] => destruct (Z.eqb_spec x y); try lia
         end; reflexivity.
Qed.

(** Decoding undoes the encoding of a code point. *)
Lemma encode_cp_decode (c : Z) (b rest : pybytes) :
  0 <= c <= 1114111 -> encode_cp c = Some b ->
  utf8_decode false (b ++ rest) = cons c <$> utf8_decode false rest.
Proof.
  intros Hc. unfold encode_cp.
  destruct (Z.ltb_spec c 128); [|destruct (Z.ltb_spec c 2048);
    [|destruct ((55296 <=? c) && (c <=? 57343)) eqn:Es;
      [discriminate|destruct (Z.ltb_spec c 65536)]]];
    intros [= <-]; cbn [app].
  - cbn [utf8_decode]. destruct (Z.ltb_spec c 128); [reflexivity|lia].
  - rewrite decode_two by (Z.div_mod_to_equations; lia).
    f_equal. f_equal. Z.div_mod_to_equations. lia.
  - apply andb_false_iff in Es. rewrite !Z.leb_gt in Es.
    rewrite decode_three by (Z.div_mod_to_equations; lia).
    f_equal. f_equal. Z.div_mod_to_equations. lia.
  - rewrite decode_four by (Z.div_mod_to_equations; lia).
    f_equal. f_equal. Z.div_mod_to_equations. lia.
Qed.

Lemma utf8_round_trip (s : pystr) (b : pybytes) :
  valid_str s = true -> str_encode_utf8 s = Some b ->
  bytes_decode_utf8 b = Some s.
Proof.
  unfold bytes_decode_utf8, valid_str. revert b.
  induction s as [|c s IH]; intros b Hv He; simpl in *.
  - injection He as <-. reflexivity.
  - apply andb_true_iff in Hv as [Hc Hv].
    apply andb_true_iff in Hc as [Hc1 Hc2]. apply Z.leb_le in Hc1, Hc2.
    destruct (encode_cp c) as [bc|] eqn:Ec; [|discriminate].
    destruct (str_encode_utf8 s) as [bs|] eqn:Es; [|discriminate].
    injection He as <-.
    rewrite (encode_cp_decode c bc bs) by (assumption || lia).
    rewrite (IH bs) by (assumption || reflexivity). reflexivity.
Qed.

(** X5: the octets that [fetchMessage] returns are the UTF-8 form of the
    text that [as_string] gave for the message kept under that identifier:
    decoded strictly, they give that text again.  It fails with the
    not-found condition exactly for an identifier outside of the index.  For
    an identifier of the index it raises what [as_string] raises, such as
    [LookupError], or [UnicodeEncodeError] when the text does not encode. *)
Theorem fetchMessage_outcome (self : IndexedMboxMailbox) (message_id : Z) :
  forallb (fun im => valid_text (snd im)) (index self) = true ->
  match fetchMessage self message_id with
  | Succeed b =>
    exists msg text,
      dict_get message_id (index self) = Some msg /\
      as_string msg = inr text /\ bytes_decode_utf8 b = Some text
  | Fail e => e = not_found /\ dict_contains message_id (index self) = false
  | Raise e =>
    exists msg,
      dict_get message_id (index self) = Some msg /\
      (as_string msg = inl e \/
       exists text, as_string msg = inr text /\
                    str_encode_utf8 text = None /\ e = UnicodeEncodeError)
  end.
Proof.
  intros Hv. apply forallb_Forall_iff in Hv. unfold fetchMessage, dict_contains.
  destruct (dict_get message_id (index self)) as [msg|] eqn:Eg;
    [|split; reflexivity].
  destruct (as_string msg) as [e|text] eqn:Ea.
  - exists msg. split; [reflexivity|]. left. exact Ea.
  - destruct (str_encode_utf8 text) as [b|] eqn:Ee.
    + exists msg, text. split; [reflexivity|]. split; [exact Ea|].
      apply utf8_round_trip; [|exact Ee].
      rewrite Forall_forall in Hv.
      assert (Hin : (message_id, msg) ∈ index self).
      { clear Hv. induction (index self) as [|[k v] d IH]; simpl in Eg;
          [discriminate|].
        destruct (Z.eqb_spec message_id k) as [->|Hne].
        - injection Eg as ->. left.
        - right. apply IH, Eg. }
      apply Hv in Hin. unfold valid_text in Hin. cbn [snd] in Hin.
      rewrite Ea in Hin. exact Hin.
    + exists msg. split; [reflexivity|]. right. exists text. auto.
Qed.

Lemma fetchMessage_outcome_witness :
  let self := snd (open_folder inbox [unknown_charset; invoice]) in
  forallb (fun im => valid_text (snd im)) (index self) = true /\
  fetchMessage self 1 = Raise LookupError /\
  match fetchMessage self 2 with
  | Succeed b =>
    exists msg text,
      dict_get 2 (index self) = Some msg /\
      as_string msg = inr text /\ bytes_decode_utf8 b = Some text
  | Fail e => e = not_found /\ dict_contains 2 (index self) = false
  | Raise e =>
    exists msg,
      dict_get 2 (index self) = Some msg /\
      (as_string msg = inl e \/
       exists text, as_string msg = inr text /\
                    str_encode_utf8 text = None /\ e = UnicodeEncodeError)
  end.
Proof.
  intros self. split; [vm_compute; reflexivity|].
  split; [vm_compute; reflexivity|].
  apply fetchMessage_outcome. vm_compute. reflexivity.
Defined.

(** *** The file and the message list *)

Lemma init_path fs0 name :
  path (mbox (snd (IndexedMboxMailbox_init fs0 name))) = mbox_path name.
Proof. rewrite init_store. reflexivity. Qed.

Lemma init_file fs0 name :
  fst (IndexedMboxMailbox_init fs0 name) !! mbox_path name
  = Some (file_of fs0 (mbox_path name)).
Proof.
  unfold IndexedMboxMailbox_init, mbox_open, file_of.
  destruct (fs0 !! mbox_path name) eqn:E; simpl.
  - exact E.
  - apply lookup_insert_eq.
Qed.

Lemma deleteMessage_path disk_ok fs0 self message_id :
  path (mbox (snd (deleteMessage disk_ok fs0 self message_id))) = path (mbox self).
Proof.
  unfold deleteMessage.
  destruct (dict_contains message_id (index self)); [|reflexivity].
  unfold mbox_remove.
  destruct (dict_contains _ _); simpl; [|apply lookup_toc_path].
  unfold mbox_flush; simpl. destruct disk_ok; simpl; apply lookup_toc_path.
Qed.

Lemma deleteMessage_file disk_ok fs0 self message_id :
  fs0 !! path (mbox self) = Some (messages self) ->
  let '(_, fs1, self1) := deleteMessage disk_ok fs0 self message_id in
  fs1 !! path (mbox self) = Some (messages self1).
Proof.
  intros Hf. unfold deleteMessage.
  destruct (dict_contains message_id (index self)); [|exact Hf].
  unfold mbox_remove.
  destruct (dict_contains _ _); simpl; [|exact Hf].
  unfold mbox_flush; simpl. destruct disk_ok; simpl; [|exact Hf].
  rewrite lookup_toc_path. apply lookup_insert_eq.
Qed.

Lemma serve_all_file reqs st p :
  path (mbox (snd st)) = p -> fst st !! p = Some (messages (snd st)) ->
  path (mbox (snd (serve_all st reqs))) = p /\
  fst (serve_all st reqs) !! p = Some (messages (snd (serve_all st reqs))).
Proof.
  unfold serve_all. revert st.
  induction reqs as [|req reqs IH]; intros st Hp Hf; simpl; [auto|].
  apply IH; destruct req; simpl; try assumption.
  - pose proof (deleteMessage_path disk_ok (fst st) (snd st) message_id) as H.
    destruct (deleteMessage _ _ _ _) as [[r fs1] s1]. simpl in *. congruence.
  - pose proof (deleteMessage_path disk_ok (fst st) (snd st) message_id) as H.
    pose proof (deleteMessage_file disk_ok (fst st) (snd st) message_id) as H'.
    destruct (deleteMessage _ _ _ _) as [[r fs1] s1]. simpl in *.
    rewrite Hp in H'. apply H'. exact Hf.
Qed.

(** X6: after [__init__] and any run of calls on the store, whatever each
    delete did, the Message File of the folder holds exactly the messages of
    the store's message list, in the same order, and [getMessageCount]
    answers with the number of entries of the file. *)
Theorem file_matches_store (fs0 : FS) (name : pystr) (reqs : list request) :
  let st := serve_all (IndexedMboxMailbox_init fs0 name) reqs in
  fst st !! mbox_path name = Some (messages (snd st)) /\
  getMessageCount (snd st)
  = Succeed (Z.of_nat (length (file_of (fst st) (mbox_path name)))).
Proof.
  intros st.
  destruct (serve_all_file reqs (IndexedMboxMailbox_init fs0 name) (mbox_path name))
    as [_ Hf].
  - apply init_path.
  - rewrite init_file, init_messages. reflexivity.
  - fold st in Hf. split; [exact Hf|].
    unfold getMessageCount, file_of. rewrite Hf. reflexivity.
Qed.

(** *** A store whose table is built *)

(** What [deleteMessage] does on a store whose table is [t]. *)
Lemma deleteMessage_table disk_ok fs0 self message_id t :
  toc (mbox self) = Some t ->
  deleteMessage disk_ok fs0 self message_id
  = if dict_contains message_id (index self) then
      if dict_contains (message_id - 1) t then
        let t' := dict_del (message_id - 1) t in
        if disk_ok then
          (Succeed true,
           <[path (mbox self) := map snd (sort_by_key t')]> fs0,
           {| folder_name := folder_name self;
              mbox_file := mbox_file self;
              mbox := {| path := path (mbox self);
                         toc := Some (sort_by_key t');
                         next_key := next_key (mbox self);
                         pending := false |};
              listeners := listeners self;
              messages := map snd (sort_by_key t');
              index := index_of (map snd (sort_by_key t')) |})
        else
          (Raise OSError, fs0,
           with_mbox self {| path := path (mbox self);
                             toc := Some t';
                             next_key := next_key (mbox self);
                             pending := true |})
      else (Raise KeyError, fs0, self)
    else (Fail not_found, fs0, self).
Proof.
  destruct self as [fn mf [p tc nk pd] ls ms ix]; simpl. intros ->.
  unfold deleteMessage; simpl.
  destruct (dict_contains message_id ix); [|reflexivity].
  unfold mbox_remove, lookup_toc, toc_items; simpl.
  destruct (dict_contains (message_id - 1) t); [|reflexivity].
  unfold mbox_flush, toc_items; simpl. destruct disk_ok; reflexivity.
Qed.

Lemma dict_del_position {A} k (t : list (Z * A)) :
  dict_contains k t = true ->
  exists i, (i < length t)%nat /\ map snd (dict_del k t) = delete i (map snd t).
Proof.
  unfold dict_contains.
  induction t as [|[k' v] t IH]; simpl; [discriminate|].
  destruct (k =? k').
  - intros _. exists 0%nat. split; [lia|reflexivity].
  - intros H. destruct (IH H) as (i & Hi & E).
    exists (S i). split; [lia|]. simpl. rewrite E. reflexivity.
Qed.

Lemma dict_del_missing {A} k (t : list (Z * A)) :
  keys_increasing t -> dict_contains k (dict_del k t) = false.
Proof.
  unfold keys_increasing, dict_contains.
  induction t as [|[k' v] t IH]; simpl; intros H; [reflexivity|].
  inversion H as [|? ? Hs Hall]; subst.
  destruct (Z.eqb_spec k k') as [->|Hne].
  - clear IH H Hs. induction t as [|[k2 v2] t IH]; simpl; [reflexivity|].
    inversion Hall; subst. simpl in *.
    destruct (Z.eqb_spec k' k2); [lia|]. apply IH. assumption.
  - simpl. destruct (Z.eqb_spec k k'); [contradiction|]. apply IH, Hs.
Qed.

Lemma init_in_sync fs0 name :
  in_sync (fst (IndexedMboxMailbox_init fs0 name))
          (snd (IndexedMboxMailbox_init fs0 name)).
Proof.
  exists (enumerate_from 0 (file_of fs0 (mbox_path name))).
  rewrite init_store. cbn [mbox toc pending messages index path].
  rewrite enumerate_values, init_file.
  repeat split. apply enumerate_increasing.
Qed.

Lemma deleteMessage_in_sync fs0 self message_id :
  in_sync fs0 self ->
  in_sync (snd (fst (deleteMessage true fs0 self message_id)))
          (snd (deleteMessage true fs0 self message_id)).
Proof.
  intros (t & Ht & Hk & Hp & Hm & Hi & Hf).
  rewrite (deleteMessage_table _ _ _ _ t Ht).
  destruct (dict_contains message_id (index self));
    [|exists t; repeat split; assumption].
  destruct (dict_contains (message_id - 1) t);
    [|exists t; repeat split; assumption].
  simpl.
  exists (sort_by_key (dict_del (message_id - 1) t)). simpl.
  rewrite lookup_insert_eq. repeat split.
  rewrite sort_by_key_sorted by (apply dict_del_increasing, Hk).
  apply dict_del_increasing, Hk.
Qed.

Lemma serve_all_in_sync reqs st :
  forallb reliable reqs = true ->
  in_sync (fst st) (snd st) ->
  in_sync (fst (serve_all st reqs)) (snd (serve_all st reqs)).
Proof.
  unfold serve_all. revert st.
  induction reqs as [|req reqs IH]; intros st Hr Hs; simpl; [exact Hs|].
  simpl in Hr. apply andb_true_iff in Hr as [Hreq Hr].
  apply IH; [exact Hr|].
  destruct req; simpl; try exact Hs.
  simpl in Hreq. subst disk_ok.
  pose proof (deleteMessage_in_sync (fst st) (snd st) message_id Hs) as H.
  destruct (deleteMessage _ _ _ _) as [[r fs1] s1]. exact H.
Qed.

(** X7: on a store that was opened and then served calls whose writes all
    reached the disk, a delete that succeeds removes exactly one message from
    the message list, the others keeping their order, and the count drops by
    one.  A delete that does not succeed changes nothing: it raises
    [KeyError] for an identifier of the index whose key the table has lost,
    and fails with the not-found condition for the other identifiers. *)
Theorem delete_removes_one (fs0 : FS) (name : pystr) (reqs : list request)
    (message_id : Z) :
  forallb reliable reqs = true ->
  let st := serve_all (IndexedMboxMailbox_init fs0 name) reqs in
  let '(r, fs1, self1) := deleteMessage true (fst st) (snd st) message_id in
  match r with
  | Succeed _ =>
    exists i, (i < length (messages (snd st)))%nat /\
              messages self1 = delete i (messages (snd st)) /\
              getMessageCount (snd st) = Succeed (Z.of_nat (length (messages self1)) + 1)
  | Raise e =>
    e = KeyError /\ dict_contains message_id (index (snd st)) = true /\
    fs1 = fst st /\ self1 = snd st
  | Fail e =>
    e = not_found /\ dict_contains message_id (index (snd st)) = false /\
    fs1 = fst st /\ self1 = snd st
  end.
Proof.
  intros Hr st.
  pose proof (serve_all_in_sync reqs (IndexedMboxMailbox_init fs0 name) Hr
                (init_in_sync fs0 name)) as Hs.
  fold st in Hs. destruct Hs as (t & Ht & Hk & Hp & Hm & Hi & Hf).
  rewrite (deleteMessage_table _ _ _ _ t Ht).
  destruct (dict_contains message_id (index (snd st))); [|repeat split].
  destruct (dict_contains (message_id - 1) t) eqn:Ec; [|repeat split].
  simpl. rewrite sort_by_key_sorted by (apply dict_del_increasing, Hk).
  destruct (dict_del_position _ _ Ec) as (i & Hlt & E).
  exists i. rewrite Hm, E, length_map. repeat split; [exact Hlt|].
  unfold getMessageCount. rewrite Hm, length_map, length_delete.
  - rewrite length_map. f_equal. lia.
  - apply lookup_lt_is_Some. rewrite length_map. exact Hlt.
Qed.

Lemma delete_removes_one_witness :
  forallb reliable [ReqDelete true 1; ReqCount] = true /\
  let st := serve_all (open_folder inbox [msgA; msgB; msgC])
                      [ReqDelete true 1; ReqCount] in
  let '(r, fs1, self1) := deleteMessage true (fst st) (snd st) 2 in
  match r with
  | Succeed _ =>
    exists i, (i < length (messages (snd st)))%nat /\
              messages self1 = delete i (messages (snd st)) /\
              getMessageCount (snd st) = Succeed (Z.of_nat (length (messages self1)) + 1)
  | Raise e =>
    e = KeyError /\ dict_contains 2 (index (snd st)) = true /\
    fs1 = fst st /\ self1 = snd st
  | Fail e =>
    e = not_found /\ dict_contains 2 (index (snd st)) = false /\
    fs1 = fst st /\ self1 = snd st
  end.
Proof.
  split; [reflexivity|].
  apply (delete_removes_one (single_folder inbox [msgA; msgB; msgC]) inbox
           [ReqDelete true 1; ReqCount] 2).
  reflexivity.
Defined.

(** X8: a delete whose write failed with [OSError] cannot be retried: the
    same call again, with or without a working disk, raises [KeyError],
    while the identifier is still in the index and the file, the message list
    and the index are as they were before the first attempt. *)
Theorem retry_after_failed_write (fs0 : FS) (name : pystr) (reqs : list request)
    (message_id : Z) (disk_ok : bool) :
  forallb reliable reqs = true ->
  let st := serve_all (IndexedMboxMailbox_init fs0 name) reqs in
  fst (fst (deleteMessage false (fst st) (snd st) message_id)) = Raise OSError ->
  let '(r1, fs1, s1) := deleteMessage false (fst st) (snd st) message_id in
  let '(r2, fs2, s2) := deleteMessage disk_ok fs1 s1 message_id in
  r2 = Raise KeyError /\ fs2 = fst st /\
  dict_contains message_id (index s2) = true /\
  messages s2 = messages (snd st) /\ index s2 = index (snd st).
Proof.
  intros Hr st.
  pose proof (serve_all_in_sync reqs (IndexedMboxMailbox_init fs0 name) Hr
                (init_in_sync fs0 name)) as Hs.
  fold st in Hs. destruct Hs as (t & Ht & Hk & Hp & Hm & Hi & Hf).
  rewrite (deleteMessage_table _ _ _ _ t Ht).
  destruct (dict_contains message_id (index (snd st))) eqn:Ei; [|discriminate].
  destruct (dict_contains (message_id - 1) t) eqn:Ec; [|discriminate].
  simpl. intros _.
  rewrite (deleteMessage_table _ _ _ _ (dict_del (message_id - 1) t))
    by reflexivity.
  simpl. rewrite Ei, dict_del_missing by exact Hk.
  repeat split. exact Ei.
Qed.

Lemma retry_after_failed_write_witness :
  forallb reliable [] = true /\
  let st := serve_all (open_folder inbox [msgA; msgB; msgC]) [] in
  fst (fst (deleteMessage false (fst st) (snd st) 2)) = Raise OSError /\
  let '(r1, fs1, s1) := deleteMessage false (fst st) (snd st) 2 in
  let '(r2, fs2, s2) := deleteMessage true fs1 s1 2 in
  r2 = Raise KeyError /\ fs2 = fst st /\
  dict_contains 2 (index s2) = true /\
  messages s2 = messages (snd st) /\ index s2 = index (snd st).
Proof.
  split; [reflexivity|].
  split; [vm_compute; reflexivity|].
  apply (retry_after_failed_write (single_folder inbox [msgA; msgB; msgC]) inbox
           [] 2 true); [reflexivity|vm_compute; reflexivity].
Defined.

(** X9: the removal of a delete whose write failed stays pending in the
    table and is written by the next delete that succeeds: after the failure
    the count is unchanged, and after the later success two messages are
    gone from the message list and from the file. *)
Theorem failed_delete_takes_effect_later (fs0 : FS) (name : pystr)
    (reqs : list request) (a b : Z)
    (fs1 fs2 : FS) (s1 s2 : IndexedMboxMailbox) :
  forallb reliable reqs = true ->
  let st := serve_all (IndexedMboxMailbox_init fs0 name) reqs in
  deleteMessage false (fst st) (snd st) a = (Raise OSError, fs1, s1) ->
  deleteMessage true fs1 s1 b = (Succeed true, fs2, s2) ->
  getMessageCount s1 = getMessageCount (snd st) /\
  getMessageCount (snd st) = Succeed (Z.of_nat (length (messages s2)) + 2) /\
  (exists i j, messages s2 = delete j (delete i (messages (snd st)))) /\
  fs2 !! mbox_path name = Some (messages s2).
Proof.
  intros Hr st.
  pose proof (serve_all_in_sync reqs (IndexedMboxMailbox_init fs0 name) Hr
                (init_in_sync fs0 name)) as Hs.
  fold st in Hs. destruct Hs as (t & Ht & Hk & Hp & Hm & Hi & Hf).
  assert (Hpath : path (mbox (snd st)) = mbox_path name).
  { apply (serve_all_file reqs (IndexedMboxMailbox_init fs0 name)).
    - apply init_path.
    - rewrite init_file, init_messages. reflexivity. }
  rewrite (deleteMessage_table _ _ _ _ t Ht).
  destruct (dict_contains a (index (snd st))) eqn:Ei; [|discriminate].
  destruct (dict_contains (a - 1) t) eqn:Ec; [|discriminate].
  cbv zeta. intros [= <- <-].
  rewrite (deleteMessage_table _ _ _ _ (dict_del (a - 1) t)) by reflexivity.
  cbn [with_mbox index mbox path next_key folder_name mbox_file listeners].
  destruct (dict_contains b (index (snd st))); [|discriminate].
  destruct (dict_contains (b - 1) (dict_del (a - 1) t)) eqn:Ed; [|discriminate].
  cbv zeta. intros [= <- <-].
  rewrite sort_by_key_sorted by (do 2 apply dict_del_increasing; exact Hk).
  destruct (dict_del_position _ _ Ec) as (i & Hlt & E).
  destruct (dict_del_position _ _ Ed) as (j & Hlt' & E').
  cbn [messages]. rewrite Hpath, lookup_insert_eq.
  assert (Hj : (j < length (delete i (map snd t)))%nat).
  { rewrite <- E, length_map. exact Hlt'. }
  assert (Hl : length (delete i (map snd t)) = (length t - 1)%nat).
  { rewrite length_delete, length_map; [reflexivity|].
    apply lookup_lt_is_Some. rewrite length_map. exact Hlt. }
  split; [reflexivity|]. split.
  - unfold getMessageCount. rewrite Hm, E', E, !length_map.
    rewrite length_delete by (apply lookup_lt_is_Some; exact Hj).
    f_equal. lia.
  - split; [|reflexivity]. exists i, j. rewrite E', E, Hm. reflexivity.
Qed.

Lemma failed_delete_takes_effect_later_witness :
  let st := serve_all (open_folder inbox [msgA; msgB; msgC]) [] in
  let d1 := deleteMessage false (fst st) (snd st) 2 in
  let d2 := deleteMessage true (snd (fst d1)) (snd d1) 1 in
  forallb reliable [] = true /\
  d1 = (Raise OSError, snd (fst d1), snd d1) /\
  d2 = (Succeed true, snd (fst d2), snd d2) /\
  getMessageCount (snd d1) = Succeed 3 /\
  getMessageCount (snd d2) = Succeed 1 /\
  getMessageCount (snd st) = Succeed (Z.of_nat (length (messages (snd d2))) + 2).
Proof.
  intros st d1 d2.
  assert (H1 : d1 = (Raise OSError, snd (fst d1), snd d1))
    by (vm_compute; reflexivity).
  assert (H2 : d2 = (Succeed true, snd (fst d2), snd d2))
    by (vm_compute; reflexivity).
  split; [reflexivity|]. split; [exact H1|]. split; [exact H2|].
  split; [vm_compute; reflexivity|]. split; [vm_compute; reflexivity|].
  exact (proj1 (proj2
    (failed_delete_takes_effect_later (single_folder inbox [msgA; msgB; msgC])
       inbox [] 2 1 (snd (fst d1)) (snd (fst d2)) (snd d1) (snd d2)
       eq_refl H1 H2))).
Defined.

(** *** Searching, then fetching *)

Lemma filter_keys_increasing {A} (f : Z * A -> bool) (d : list (Z * A)) :
  keys_increasing d -> StronglySorted Z.lt (map fst (List.filter f d)).
Proof.
  unfold keys_increasing. induction d as [|[k m] d IH]; intros Hs; simpl.
  - constructor.
  - inversion Hs as [|? ? Hs' Hlt]; subst.
    destruct (f (k, m)); simpl; [|apply IH; assumption].
    constructor; [apply IH; assumption|].
    rewrite Forall_forall in *. intros x Hx. apply Hlt.
    apply list_elem_of_fmap in Hx as ([k' m'] & -> & Hx).
    apply list_elem_of_In, filter_In in Hx as [Hx _].
    apply list_elem_of_fmap. exists (k', m'). split; [reflexivity|].
    apply list_elem_of_In. exact Hx.
Qed.

(** X10: for a query in ASCII on a store that was opened and then served
    any run of calls, and whose messages have subjects and decoded bodies in
    ASCII: when [search] succeeds, its identifiers increase strictly, lie
    between 1 and the message count, and each one names a message of the
    index that passes the test; [fetchMessage] does not answer not-found for
    any of them. *)
Theorem search_results_fetchable (fs0 : FS) (name : pystr) (reqs : list request)
    (q : pystr) (ids : list Z) :
  let self := snd (serve_all (IndexedMboxMailbox_init fs0 name) reqs) in
  is_ascii q = true -> ascii_folder self = true ->
  search self q = Succeed ids ->
  StronglySorted Z.lt ids /\
  forall k, In k ids ->
    1 <= k <= Z.of_nat (length (messages self)) /\
    exists msg, dict_get k (index self) = Some msg /\ matches q msg = true /\
                fetchMessage self k <> Fail not_found.
Proof.
  intros self _ _ Hs.
  assert (Hc : consistent self) by apply serve_all_consistent, init_consistent.
  assert (Hinc : keys_increasing (index self)).
  { rewrite Hc, index_of_enumerate. apply enumerate_increasing. }
  unfold search in Hs. rewrite search_loop_outcome in Hs.
  destruct (existsb _ (index self)); [discriminate|].
  injection Hs as <-. simpl. split; [apply filter_keys_increasing, Hinc|].
  intros k Hk. apply in_map_iff in Hk as ([k' m] & <- & Hin).
  apply filter_In in Hin as [Hin Hm]. simpl in *.
  apply list_elem_of_In, (dict_get_elem _ _ _ Hinc) in Hin.
  split.
  - apply index_of_contains. rewrite <- Hc. unfold dict_contains.
    rewrite Hin. reflexivity.
  - exists m. split; [exact Hin|]. split; [exact Hm|].
    unfold fetchMessage. rewrite Hin.
    destruct (as_string m) as [e|text]; [discriminate|].
    destruct (str_encode_utf8 text); discriminate.
Qed.

Lemma search_results_fetchable_witness :
  let self := snd (serve_all (open_folder inbox [msgA; invoice]) []) in
  is_ascii (py "invoice") = true /\ ascii_folder self = true /\
  search self (py "invoice") = Succeed [2] /\
  StronglySorted Z.lt [2] /\
  forall k, In k [2] ->
    1 <= k <= Z.of_nat (length (messages self)) /\
    exists msg,
      dict_get k (index self) = Some msg /\
      matches (py "invoice") msg = true /\
      fetchMessage self k <> Fail not_found.
Proof.
  intros self.
  assert (Ha : ascii_folder self = true) by (vm_compute; reflexivity).
  assert (H : search self (py "invoice") = Succeed [2])
    by (vm_compute; reflexivity).
  split; [reflexivity|]. split; [exact Ha|]. split; [exact H|].
  exact (search_results_fetchable (single_folder inbox [msgA; invoice]) inbox []
           (py "invoice") [2] eq_refl Ha H).
Defined.

(** *** Listeners *)

Lemma list_remove_spec (x : Z) (l : list Z) :
  match list_remove x l with
  | None => ~ In x l
  | Some l' => l ≡ₚ x :: l'
  end.
Proof.
  induction l as [|y l IH]; simpl; [tauto|].
  destruct (Z.eqb_spec x y) as [->|Hne]; [reflexivity|].
  destruct (list_remove x l) as [l'|]; simpl.
  - rewrite IH. apply Permutation_swap.
  - intros [H|H]; [congruence|contradiction].
Qed.

Lemma list_remove_last (x : Z) (l : list Z) :
  exists l', list_remove x (l ++ [x]) = Some l' /\ l' ≡ₚ l /\
             (~ In x l -> l' = l).
Proof.
  induction l as [|y l IH]; simpl.
  - rewrite Z.eqb_refl. exists []. auto.
  - destruct (Z.eqb_spec x y) as [->|Hne].
    + exists (l ++ [y]). split; [reflexivity|]. split.
      * rewrite Permutation_app_comm. reflexivity.
      * intros H. exfalso. apply H. left. reflexivity.
    + destruct IH as (l' & -> & Hp & Hn). exists (y :: l'). simpl.
      split; [reflexivity|]. split; [rewrite Hp; reflexivity|].
      intros H. f_equal. apply Hn. tauto.
Qed.

(** X11: [removeListener] raises [ValueError] exactly for a listener that
    is not registered; otherwise it takes away one registration of it and
    leaves the mbox object, the message list and the index alone.  Removing
    a listener right after adding it always succeeds and gives back the
    registrations there were before, up to their order; the store is the
    very same when the listener was not registered before. *)
Theorem listeners_add_remove (self : IndexedMboxMailbox) (listener : Z) :
  match removeListener self listener with
  | None => ~ In listener (listeners self)
  | Some self1 =>
    listeners self ≡ₚ listener :: listeners self1 /\
    mbox self1 = mbox self /\ messages self1 = messages self /\
    index self1 = index self
  end /\
  exists self2,
    removeListener (addListener self listener) listener = Some self2 /\
    listeners self2 ≡ₚ listeners self /\
    (~ In listener (listeners self) -> self2 = self).
Proof.
  split.
  - unfold removeListener.
    pose proof (list_remove_spec listener (listeners self)) as H.
    destruct (list_remove listener (listeners self)); simpl; auto.
  - unfold removeListener, addListener; simpl.
    destruct (list_remove_last listener (listeners self)) as (l' & -> & Hp & Hn).
    eexists. split; [reflexivity|]. simpl. split; [exact Hp|].
    intros H. rewrite (Hn H). destruct self; reflexivity.
Qed.

(** *** The account *)

(** X12: a store registered with [addMailbox] under a name is what
    [select] returns for the UTF-8 octets of that name; no store is created
    and the account is not changed. *)
Theorem addMailbox_select (w : World) (self : MboxUser) (folder : pystr)
    (name : pybytes) (l : nat) :
  valid_str folder = true -> str_encode_utf8 folder = Some name ->
  select w (addMailbox self folder l) name
  = Some (Succeed l, w, addMailbox self folder l).
Proof.
  intros Hv He. unfold select.
  rewrite (utf8_round_trip folder name Hv He).
  unfold addMailbox; simpl. rewrite lookup_insert_eq. reflexivity.
Qed.

Lemma addMailbox_select_witness :
  valid_str (py "Archive") = true /\
  str_encode_utf8 (py "Archive") = Some (py "Archive") /\
  select empty_world (addMailbox (snd fresh_account) (py "Archive") 7%nat)
         (py "Archive")
  = Some (Succeed 7%nat, empty_world,
          addMailbox (snd fresh_account) (py "Archive") 7%nat).
Proof.
  split; [reflexivity|]. split; [reflexivity|].
  apply addMailbox_select; reflexivity.
Defined.

(** X13: after a [create] that built its store, [select] with the UTF-8
    octets of the same name returns the store that [create] built and
    builds no other one; this store carries the name, holds the messages of
    the file of the name, and the file is on disk with these messages. *)
Theorem create_then_select (w : World) (self : MboxUser) (p : pystr)
    (name : pybytes) (w1 : World) (self1 : MboxUser) :
  valid_str p = true -> str_encode_utf8 p = Some name ->
  create w self p = Some (Succeed true, w1, self1) ->
  select w1 self1 name = Some (Succeed (length (heap w)), w1, self1) /\
  exists s, heap w1 !! length (heap w) = Some s /\
            folder_name s = p /\
            messages s = file_of (fs w) (mbox_path p) /\
            fs w1 !! mbox_path p = Some (messages s).
Proof.
  intros Hv He Hc. unfold create in Hc.
  destruct (IndexedMboxMailbox_new (fs w) p) as [[e|[fs1 s]]|] eqn:Hn;
    [discriminate| |discriminate].
  apply new_opened in Hn as [_ Hinit].
  pose proof (init_messages (fs w) p) as Hm.
  pose proof (init_file (fs w) p) as Hf.
  pose proof (init_store (fs w) p) as Hs.
  rewrite <- Hinit in Hm, Hf, Hs. cbn [fst snd] in Hm, Hf, Hs.
  unfold alloc in Hc. injection Hc as <- <-. cbn [heap fs].
  split.
  - unfold select. rewrite (utf8_round_trip p name Hv He). cbn [mailboxes].
    rewrite lookup_insert_eq. reflexivity.
  - exists s. rewrite lookup_app_r by lia. rewrite Nat.sub_diag.
    split; [reflexivity|]. split; [rewrite Hs; reflexivity|].
    split; [exact Hm|]. rewrite Hm. exact Hf.
Qed.

Lemma create_then_select_witness :
  let made := create (fst fresh_account) (snd fresh_account) (py "Archive") in
  let w1 := from_option (fun x => snd (fst x)) empty_world made in
  let self1 := from_option snd (snd fresh_account) made in
  valid_str (py "Archive") = true /\
  str_encode_utf8 (py "Archive") = Some (py "Archive") /\
  made = Some (Succeed true, w1, self1) /\
  select w1 self1 (py "Archive")
  = Some (Succeed (length (heap (fst fresh_account))), w1, self1).
Proof.
  intros made w1 self1.
  assert (H : made = Some (Succeed true, w1, self1))
    by (vm_compute; reflexivity).
  split; [reflexivity|]. split; [reflexivity|]. split; [exact H|].
  exact (proj1 (create_then_select (fst fresh_account) (snd fresh_account)
                  (py "Archive") (py "Archive") w1 self1 eq_refl eq_refl H)).
Defined.


(** X16: [listMailboxes] answers with the names bound in the account, each
    one once, whatever [ref] and [wildcard] are. *)
Theorem listMailboxes_names (self : MboxUser) (ref wildcard : pystr) :
  exists names,
    listMailboxes self ref wildcard = Succeed names /\
    NoDup names /\
    forall p, p ∈ names <-> is_Some (mailboxes self !! p).
Proof.
  eexists. split; [reflexivity|]. split.
  - apply NoDup_fst_map_to_list.
  - intros p. rewrite list_elem_of_fmap. split.
    + intros ([p' l] & -> & H). apply elem_of_map_to_list in H. eauto.
    + intros [l H]. exists (p, l). split; [reflexivity|].
      apply elem_of_map_to_list. exact H.
Qed.

(** *** Two connections *)

Lemma init_again fs0 name :
  fst (IndexedMboxMailbox_init (fst (IndexedMboxMailbox_init fs0 name)) name)
  = fst (IndexedMboxMailbox_init fs0 name).
Proof.
  pose proof (init_file fs0 name) as Hf.
  destruct (IndexedMboxMailbox_init fs0 name) as [fs1 s]. simpl in *.
  unfold IndexedMboxMailbox_init, mbox_open. rewrite Hf. reflexivity.
Qed.

Lemma buildProtocol_built (w w1 : World) (self1 : MboxUser) :
  buildProtocol w = Some (inr (w1, self1)) -> (w1, self1) = MboxUser_init w.
Proof.
  unfold buildProtocol, MboxUser_new.
  destruct (open_file (fs w) (py "INBOX")) as [[|e]|]; [|discriminate..].
  intros H. inversion H. reflexivity.
Qed.

(** X15: two connections that are both built get two accounts with two
    INBOX stores of their own; both stores hold the messages of the one
    INBOX file, in file order and numbered from 1, and the file is the same
    after the second connection was built.  A delete through the first store
    never changes the second store, which goes on reporting the number of
    messages that the file had, even when the delete succeeds and leaves the
    first store and the file with one message less. *)
Theorem sessions_do_not_share (w w1 w2 : World) (self1 self2 : MboxUser)
    (disk_ok : bool) (message_id : Z) :
  buildProtocol w = Some (inr (w1, self1)) ->
  buildProtocol w1 = Some (inr (w2, self2)) ->
  let file := file_of (fs w) (mbox_path inbox) in
  exists l1 l2 s1 s2,
    mailboxes self1 !! inbox = Some l1 /\ mailboxes self2 !! inbox = Some l2 /\
    l1 <> l2 /\
    heap w2 !! l1 = Some s1 /\ heap w2 !! l2 = Some s2 /\
    messages s1 = file /\ messages s2 = file /\
    index s1 = enumerate_from 1 file /\ index s2 = enumerate_from 1 file /\
    fs w2 !! mbox_path inbox = Some file /\
    let '(r, w3) := deleteMessage_at disk_ok w2 l1 message_id in
    heap w3 !! l2 = Some s2 /\
    getMessageCount_at w3 l2 = Some (Succeed (Z.of_nat (length file))) /\
    match r with
    | Some (Succeed _) =>
      getMessageCount_at w3 l1 = Some (Succeed (Z.of_nat (length file) - 1)) /\
      Z.of_nat (length (file_of (fs w3) (mbox_path inbox)))
      = Z.of_nat (length file) - 1
    | _ => True
    end.
Proof.
  intros Hb1 Hb2 file.
  apply buildProtocol_built in Hb1, Hb2.
  unfold MboxUser_init in Hb1, Hb2. change (py "INBOX") with inbox in Hb1, Hb2.
  pose proof (init_in_sync (fs w) inbox) as Hs.
  pose proof (init_messages (fs w) inbox) as Hm1.
  pose proof (init_index (fs w) inbox) as Hi1.
  pose proof (init_again (fs w) inbox) as Ha.
  pose proof (init_messages (fst (IndexedMboxMailbox_init (fs w) inbox)) inbox)
    as Hm2.
  pose proof (init_index (fst (IndexedMboxMailbox_init (fs w) inbox)) inbox)
    as Hi2.
  pose proof (init_file (fs w) inbox) as Hf.
  pose proof (init_path (fs w) inbox) as Hp.
  destruct (IndexedMboxMailbox_init (fs w) inbox) as [fs1 s].
  cbn [fst snd alloc fs heap] in *. injection Hb1 as -> ->.
  cbn [fst snd alloc fs heap] in *.
  destruct (IndexedMboxMailbox_init fs1 inbox) as [fs2 s'].
  cbn [fst snd alloc fs heap] in *. injection Hb2 as -> ->. subst fs2.
  assert (Hfile : file_of fs1 (mbox_path inbox) = file).
  { unfold file_of at 1. rewrite Hf. reflexivity. }
  rewrite Hfile in Hm2, Hi2. fold file in Hm1, Hi1, Hf.
  assert (H1 : ((heap w ++ [s]) ++ [s']) !! length (heap w) = Some s).
  { rewrite lookup_app_l by (rewrite length_app; simpl; lia).
    rewrite lookup_app_r by lia. rewrite Nat.sub_diag. reflexivity. }
  assert (H2 : ((heap w ++ [s]) ++ [s']) !! length (heap w ++ [s]) = Some s').
  { rewrite lookup_app_r by lia. rewrite Nat.sub_diag. reflexivity. }
  assert (H3 : forall x, (<[length (heap w) := x]> ((heap w ++ [s]) ++ [s']))
                         !! length (heap w ++ [s]) = Some s').
  { intros x. rewrite list_lookup_insert_ne by (rewrite length_app; simpl; lia).
    exact H2. }
  exists (length (heap w)), (length (heap w ++ [s])), s, s'.
  cbn [heap fs mailboxes].
  split; [apply lookup_singleton_eq|]. split; [apply lookup_singleton_eq|].
  split; [rewrite length_app; simpl; lia|].
  split; [exact H1|]. split; [exact H2|].
  split; [exact Hm1|]. split; [exact Hm2|].
  split; [exact Hi1|]. split; [exact Hi2|]. split; [exact Hf|].
  unfold getMessageCount_at, deleteMessage_at; cbn [heap fs].
  rewrite H1.
  destruct Hs as (t & Ht & Hk & Hpd & Hm & Hi & Hft).
  rewrite (deleteMessage_table _ _ _ _ t Ht).
  assert (Hc2 : forall x, getMessageCount <$>
                  (<[length (heap w) := x]> ((heap w ++ [s]) ++ [s']))
                    !! length (heap w ++ [s])
                = Some (Succeed (Z.of_nat (length file)))).
  { intros x. rewrite H3. simpl. unfold getMessageCount. rewrite Hm2.
    reflexivity. }
  destruct (dict_contains message_id (index s));
    [|cbn [heap fs]; split; [apply H3|]; split; [apply Hc2|exact I]].
  destruct (dict_contains (message_id - 1) t) eqn:Ec;
    [|cbn [heap fs]; split; [apply H3|]; split; [apply Hc2|exact I]].
  cbv zeta.
  destruct disk_ok; cbn [heap fs];
    (split; [apply H3|]); (split; [apply Hc2|]); [|exact I].
  rewrite list_lookup_insert_eq by (rewrite !length_app; simpl; lia).
  rewrite sort_by_key_sorted by (apply dict_del_increasing, Hk).
  destruct (dict_del_position _ _ Ec) as (i & Hlt & E).
  assert (Hl : length (map snd (dict_del (message_id - 1) t))
               = (length file - 1)%nat).
  { rewrite E, length_delete
      by (apply lookup_lt_is_Some; rewrite length_map; exact Hlt).
    rewrite <- Hm, Hm1. reflexivity. }
  assert (Hpos : (0 < length file)%nat).
  { rewrite <- Hm1, Hm, length_map. lia. }
  split.
  - simpl. unfold getMessageCount. cbn [messages]. rewrite Hl.
    do 2 f_equal. lia.
  - unfold file_of at 1. rewrite Hp, lookup_insert_eq, Hl. lia.
Qed.

Lemma sessions_do_not_share_witness :
  let disk := {| fs := single_folder inbox [msgA; msgB]; heap := [] |} in
  let c1 := buildProtocol disk in
  let w1 := from_option (fun x => match x with inr a => fst a | inl _ => disk end)
                        disk c1 in
  let self1 := from_option
                 (fun x => match x with
                           | inr a => snd a
                           | inl _ => snd fresh_account
                           end) (snd fresh_account) c1 in
  let c2 := buildProtocol w1 in
  let w2 := from_option (fun x => match x with inr a => fst a | inl _ => disk end)
                        disk c2 in
  let self2 := from_option
                 (fun x => match x with
                           | inr a => snd a
                           | inl _ => snd fresh_account
                           end) (snd fresh_account) c2 in
  c1 = Some (inr (w1, self1)) /\ c2 = Some (inr (w2, self2)) /\
  getMessageCount_at (snd (deleteMessage_at true w2 0 1)) 0 = Some (Succeed 1) /\
  getMessageCount_at (snd (deleteMessage_at true w2 0 1)) 1 = Some (Succeed 2) /\
  exists l1 l2, mailboxes self1 !! inbox = Some l1 /\
                mailboxes self2 !! inbox = Some l2 /\ l1 <> l2.
Proof.
  intros disk c1 w1 self1 c2 w2 self2.
  assert (H1 : c1 = Some (inr (w1, self1))) by (vm_compute; reflexivity).
  assert (H2 : c2 = Some (inr (w2, self2))) by (vm_compute; reflexivity).
  split; [exact H1|]. split; [exact H2|].
  split; [vm_compute; reflexivity|]. split; [vm_compute; reflexivity|].
  destruct (sessions_do_not_share disk w1 w2 self1 self2 true 1 H1 H2)
    as (l1 & l2 & _ & _ & Hl1 & Hl2 & Hne & _).
  exists l1, l2. auto.
Defined.
